(** * httptestrunner: the HTTP/2 and HTTP/3 wire codecs

    A shallow embedding of the request encoders and response decode loops of
    packages [http2] and [http3], with the QUIC variable-length integer codec
    and the literal HPACK writer they rest on.

    Data.  A Go [byte] is carried as its value, an integer in [0, 256); a
    [uint64] likewise in [0, 2^64); truncating conversions and the
    operations that may wrap are written out ([uint8], [uint64], [shl64],
    [add64], [sub64]).  A slice or a string is a [list byte].  Lengths and
    indices are Go [int]s and are not wrapped; where a length is converted to
    [uint64] the conversion is written, and the properties that depend on it
    ask for lengths an [int] can hold.  [make] with a length read from the
    peer panics above the limit of the allocator, as the runtime has it;
    any other allocation of a slice is taken to succeed.

    Effects.  A function returning [(T, error)] returns a [result]; the two
    exported operations return the pair itself, as the source does, so that
    what comes with an error can be stated.  A function that may panic
    returns a [completion].  A stream is read through a small reader monad.

    Libraries.  The framer of golang.org/x/net/http2, the header
    decompressors and the QPACK compressor are not code of this repository:
    the framer's output for a frame is a parameter ([wire]), a decompressor
    and a compressor are records of their operations ([Decoder],
    [Encoder]), and what name resolution, the transport and the peer do is a
    record of outcomes ([Network]). *)

From Stdlib Require Import String ZArith List Lia Bool.
From Equations Require Import Equations.
Import ListNotations.

#[local] Set Warnings "-abstract-large-number".

Open Scope string_scope.
Open Scope list_scope.
Open Scope Z_scope.

(** ** Machine integers and byte strings *)

Definition byte := Z.
Definition bytes := list byte.

Definition uint8 (x : Z) : Z := x mod 256.
Definition uint64 (x : Z) : Z := x mod 2 ^ 64.
Definition shl64 (x n : Z) : Z := uint64 (Z.shiftl x n).
Definition add64 (x y : Z) : Z := uint64 (x + y).
Definition sub64 (x y : Z) : Z := uint64 (x - y).

Definition len {A : Type} (l : list A) : Z := Z.of_nat (length l).

(** [s[lo:hi]] for [0 <= lo <= hi <= len s]. *)
Definition slice {A : Type} (s : list A) (lo hi : Z) : list A :=
  firstn (Z.to_nat (hi - lo)) (skipn (Z.to_nat lo) s).

Definition is_byte (b : Z) : Prop := 0 <= b < 256.

(** [f] holds of every integer from 0 up to, not including, [n]: the bit
    operations on a byte are settled by running through its values. *)
Fixpoint all_below (n : nat) (f : Z -> bool) : bool :=
  match n with
  | O => true
  | S k => f (Z.of_nat k) && all_below k f
  end.

(** ** Errors

    [io_EOF] and [io_ErrUnexpectedEOF] are the two sentinels of package [io];
    [Errorf] is a value built by [fmt.Errorf] from a format and its
    arguments, [Wrapf] one that wraps an error with [%w]; [LibError] is any
    error value handed over by a library (net,
    tls, quic, the framer, a header decompressor), with the answer of its
    [IsApplicationError] method when its dynamic type has one. *)

Inductive error : Type :=
| io_EOF
| io_ErrUnexpectedEOF
| Errorf (format : string) (args : list Z)
| Wrapf (format : string) (wrapped : error)
| LibError (isApplicationError : option bool) (id : Z).

Inductive result (A : Type) : Type :=
| Ok (a : A)
| Err (e : error).
Arguments Ok {A} a.
Arguments Err {A} e.

(** A call either returns or panics with a formatted message. *)
Inductive completion (A : Type) : Type :=
| Returns (a : A)
| Panics (format : string) (arg : Z).
Arguments Returns {A} a.
Arguments Panics {A} format arg.

(** ** Byte readers

    A [bufio.Reader] over a receive stream: the bytes that will still arrive
    and the error the stream reports once they are consumed ([io_EOF] after a
    clean close). *)

Record Reader : Type := mkReader { pending : bytes; closing : error }.

Definition Read (A : Type) : Type := Reader -> result (A * Reader).

Definition ret {A : Type} (a : A) : Read A := fun r => Ok (a, r).

Definition bind {A B : Type} (c : Read A) (k : A -> Read B) : Read B :=
  fun r => match c r with
           | Ok (a, r') => k a r'
           | Err e => Err e
           end.

Notation "x <- c ;; k" := (bind c (fun x => k))
  (at level 61, c at next level, right associativity).

Definition ReadByte : Read byte := fun r =>
  match pending r with
  | b :: rest => Ok (b, mkReader rest (closing r))
  | [] => Err (closing r)
  end.

(** [io.ReadFull(b, data)] with [len(data) = n]: nothing is read for [n = 0];
    a stream that ends after some but not all of the bytes gives
    [io.ErrUnexpectedEOF], one that ends before the first gives its own
    error. *)
Definition ReadFull (n : Z) : Read bytes := fun r =>
  if n <=? len (pending r) then
    Ok (firstn (Z.to_nat n) (pending r),
        mkReader (skipn (Z.to_nat n) (pending r)) (closing r))
  else
    match pending r, closing r with
    | _ :: _, io_EOF => Err io_ErrUnexpectedEOF
    | _, e => Err e
    end.

(** A value together with the equation that names it, for the loops that
    branch on the outcome of a read. *)
Definition inspect {A : Type} (a : A) : {b : A | a = b} := exist _ a eq_refl.

(** A call that may panic, sequenced. *)
Definition and_then {A B : Type} (c : completion A) (k : A -> completion B)
  : completion B :=
  match c with
  | Returns a => k a
  | Panics f x => Panics f x
  end.

Notation "x <-! c ;; k" := (and_then c (fun x => k))
  (at level 61, c at next level, right associativity).

(** ** Header fields and header decompressors

    [types.Header] and [utils.Header]: a name and a value, both strings. *)

Record Header : Type := mkHeader { Name : bytes; Value : bytes }.

(** A header decompressor ([hpack.Decoder], [qpack.Decoder]) as the decode
    loops use it: [Write] consumes a block fragment, hands the fields it
    completes to the emit callback, in order, and may fail.  The libraries
    are not part of this repository; the loops are stated over any of them. *)
Record Decoder : Type := mkDecoder {
  dec_state : Type;
  NewDecoder : dec_state;
  Write : dec_state -> bytes -> dec_state * list Header * option error
}.

(** A header compressor ([qpack.Encoder]): [WriteField] appends the bytes of
    one field to the buffer it was created on. *)
Record Encoder : Type := mkEncoder {
  enc_state : Type;
  NewEncoder : enc_state;
  WriteField : enc_state -> Header -> enc_state * bytes
}.

Module Http2.

(** ** Package http2: the literal header writer *)

Record HTTPMessage : Type := mkMessage { Headers : list Header; Body : bytes }.

(** The [for ; val >= 128; val >>= 7] loop of [hpackAppendVarInt], returning
    the buffer and the value left for the last byte. *)
Equations? continuation (dst : bytes) (val : Z) : bytes * Z
  by wf (Z.to_nat val) lt :=
continuation dst val with Z_ge_dec val 128 := {
  | left _ =>
      continuation (dst ++ [uint8 (Z.lor 0x80 (Z.land val 0x7f))])
                   (Z.shiftr val 7)
  | right _ => (dst, val) }.
Proof.
  rewrite Z.shiftr_div_pow2 by lia. change (2 ^ 7) with 128.
  apply Z2Nat.inj_lt; Z.div_mod_to_equations; lia.
Qed.

Definition hpackAppendVarInt (dst : bytes) (n : byte) (val : Z) : bytes :=
  let k := uint64 (sub64 (shl64 1 n) 1) in
  if val <? k then dst ++ [uint8 val]
  else
    let dst := dst ++ [uint8 k] in
    let val := sub64 val k in
    let '(dst, val) := continuation dst val in
    dst ++ [uint8 val].

Definition hpackAppendHeader (dst : bytes) (h : Header) : bytes :=
  let dst := dst ++ [0x10] in
  let dst := hpackAppendVarInt dst 7 (uint64 (len (Name h))) in
  let dst := dst ++ Name h in
  let dst := hpackAppendVarInt dst 7 (uint64 (len (Value h))) in
  let dst := dst ++ Value h in
  dst.

(** ** Frames of golang.org/x/net/http2

    A frame as [Framer.ReadFrame] returns it and as the [Framer.Write...]
    calls are asked to send it: the constructor is its Go type, the header
    holds what the code reads of [FrameHeader].  [OtherFrame] stands for the
    types the code never looks into (PRIORITY, PUSH_PROMISE, PING and
    unknown ones). *)

Record FrameHeader : Type := mkFrameHeader { Flags : Z; StreamID : Z }.

Record Setting : Type := mkSetting { ID : Z; Val : Z }.

Inductive Frame : Type :=
| DataFrame (fh : FrameHeader) (data : bytes)
| HeadersFrame (fh : FrameHeader) (headerFragBuf : bytes)
| RSTStreamFrame (fh : FrameHeader) (ErrCode : Z)
| SettingsFrame (fh : FrameHeader) (settings : list Setting)
| GoAwayFrame (fh : FrameHeader) (LastStreamID ErrCode : Z) (debugData : bytes)
| WindowUpdateFrame (fh : FrameHeader) (Increment : Z)
| ContinuationFrame (fh : FrameHeader) (headerFragBuf : bytes)
| OtherFrame (fh : FrameHeader) (payload : bytes).

Definition frameHeader (f : Frame) : FrameHeader :=
  match f with
  | DataFrame fh _ | HeadersFrame fh _ | RSTStreamFrame fh _
  | SettingsFrame fh _ | GoAwayFrame fh _ _ _ | WindowUpdateFrame fh _
  | ContinuationFrame fh _ | OtherFrame fh _ => fh
  end.

Definition FlagDataEndStream : Z := 0x1.
Definition FlagHeadersEndStream : Z := 0x1.
Definition FlagHeadersEndHeaders : Z := 0x4.
Definition FlagSettingsAck : Z := 0x1.
Definition FlagContinuationEndHeaders : Z := 0x4.
Definition SettingInitialWindowSize : Z := 0x4.

(** [Flags.Has] *)
Definition Has (f v : Z) : bool := Z.land f v =? v.

(** [StreamEnded] of [DataFrame] and [HeadersFrame], [HeadersEnded] of
    [HeadersFrame] and [ContinuationFrame], [DataFrame.Data]; the other
    frames have no such method and get [false] and the empty string. *)
Definition StreamEnded (f : Frame) : bool :=
  match f with
  | DataFrame fh _ => Has (Flags fh) FlagDataEndStream
  | HeadersFrame fh _ => Has (Flags fh) FlagHeadersEndStream
  | _ => false
  end.

Definition HeadersEnded (f : Frame) : bool :=
  match f with
  | HeadersFrame fh _ => Has (Flags fh) FlagHeadersEndHeaders
  | ContinuationFrame fh _ => Has (Flags fh) FlagContinuationEndHeaders
  | _ => false
  end.

Definition Data (f : Frame) : bytes :=
  match f with
  | DataFrame _ data => data
  | _ => []
  end.

(** [http2.ClientPreface], the 24 bytes of "PRI * HTTP/2.0", two line ends,
    "SM" and two line ends. *)
Definition ClientPreface : bytes :=
  [0x50; 0x52; 0x49; 0x20; 0x2a; 0x20; 0x48; 0x54; 0x54; 0x50; 0x2f; 0x32;
   0x2e; 0x30; 0x0d; 0x0a; 0x0d; 0x0a; 0x53; 0x4d; 0x0d; 0x0a; 0x0d; 0x0a].

(** The frames the five write calls of the framer are asked for. *)
Definition WriteSettings (settings : list Setting) : Frame :=
  SettingsFrame {| Flags := 0; StreamID := 0 |} settings.

Definition WriteWindowUpdate (streamID incr : Z) : Frame :=
  WindowUpdateFrame {| Flags := 0; StreamID := streamID |} incr.

Definition WriteHeaders (streamID : Z) (BlockFragment : bytes)
  (EndStream EndHeaders : bool) : Frame :=
  HeadersFrame
    {| Flags := Z.lor (if EndStream then FlagHeadersEndStream else 0)
                      (if EndHeaders then FlagHeadersEndHeaders else 0);
       StreamID := streamID |}
    BlockFragment.

Definition WriteData (streamID : Z) (endStream : bool) (data : bytes) : Frame :=
  DataFrame {| Flags := if endStream then FlagDataEndStream else 0;
               StreamID := streamID |} data.

Definition WriteSettingsAck : Frame :=
  SettingsFrame {| Flags := FlagSettingsAck; StreamID := 0 |} [].

(** ** The request encoder

    [wire f] is what the framer appends to [requestBuf] when asked to write
    [f]; the framer belongs to the library and stays a parameter.  The body
    loop is written over any output alphabet [W], so that the same loop run
    with one symbol per frame lists the frames it asks for. *)

Equations? writeBody {W : Type} (wire : Frame -> list W) (body : bytes)
  (start : Z) (requestBuf : list W) : list W
  by wf (Z.to_nat (len body - start)) lt :=
writeBody wire body start requestBuf with Z_lt_dec start (len body) := {
  | left _ =>
      let end' := start + 65536 in
      let end' := if end' >? len body then len body else end' in
      writeBody wire body end'
        (requestBuf
         ++ wire (WriteData 1 (end' =? len body) (slice body start end')))
  | right _ => requestBuf }.
Proof.
  subst end' end'0. destruct (Z.gtb_spec (start + 65536) (len body)); lia.
Qed.

(** The write calls of the body loop, in order: from index [start] on, and
    for the whole body. *)
Definition framesFrom (body : bytes) (start : Z) : list Frame :=
  writeBody (fun f => [f]) body start [].

Definition dataFrames (body : bytes) : list Frame := framesFrom body 0.

Definition prepareHTTP2Request (wire : Frame -> bytes) (request : HTTPMessage)
  : bytes :=
  let hpackBuf := fold_left hpackAppendHeader (Headers request) [] in
  let requestBuf := ClientPreface in
  let requestBuf :=
    requestBuf
    ++ wire (WriteSettings
               [{| ID := SettingInitialWindowSize; Val := 2 ^ 30 - 1 |}]) in
  let requestBuf :=
    requestBuf ++ wire (WriteWindowUpdate 0 (2 ^ 30 - 2 ^ 16 - 1)) in
  let requestBuf :=
    requestBuf
    ++ wire (WriteHeaders 1 hpackBuf (len (Body request) =? 0) true) in
  let requestBuf := writeBody wire (Body request) 0 requestBuf in
  requestBuf ++ wire WriteSettingsAck.

(** ** The decode loop

    A connection as the framer reads it: the frames still to come and the
    error [ReadFrame] reports when there is none left to return. *)

Record Conn : Type := mkConn { incoming : list Frame; readErr : error }.

Definition noMessage : HTTPMessage := {| Headers := []; Body := [] |}.

Fixpoint readLoop (D : Decoder) (readErr : error) (incoming : list Frame)
  (response : HTTPMessage) (headersDecoder : dec_state D)
  (hasBody bodyRead headersDone : bool) {struct incoming}
  : HTTPMessage * option error :=
  if negb headersDone || (hasBody && negb bodyRead) then
    match incoming with
    | [] => (noMessage, Some readErr)
    | f :: incoming' =>
        match f with
        | GoAwayFrame _ _ code _ =>
            (noMessage,
             Some (Errorf "received GOAWAY frame: error code %v" [code]))
        | _ =>
            if negb (StreamID (frameHeader f) =? 1) then
              readLoop D readErr incoming' response headersDecoder
                       hasBody bodyRead headersDone
            else
              match f with
              | HeadersFrame _ headerBlockFragment =>
                  match Write D headersDecoder headerBlockFragment with
                  | (_, _, Some err) => (noMessage, Some err)
                  | (headersDecoder', emitted, None) =>
                      readLoop D readErr incoming'
                        {| Headers := Headers response ++ emitted;
                           Body := Body response |}
                        headersDecoder'
                        (negb (StreamEnded f)) bodyRead (HeadersEnded f)
                  end
              | ContinuationFrame _ headerBlockFragment =>
                  match Write D headersDecoder headerBlockFragment with
                  | (_, _, Some err) => (noMessage, Some err)
                  | (headersDecoder', emitted, None) =>
                      readLoop D readErr incoming'
                        {| Headers := Headers response ++ emitted;
                           Body := Body response |}
                        headersDecoder' hasBody bodyRead (HeadersEnded f)
                  end
              | DataFrame _ data =>
                  readLoop D readErr incoming'
                    {| Headers := Headers response;
                       Body := Body response ++ data |}
                    headersDecoder hasBody (StreamEnded f) headersDone
              | RSTStreamFrame _ code =>
                  (noMessage,
                   Some (Errorf "received RST_STREAM frame: error code %v"
                                [code]))
              | _ =>
                  readLoop D readErr incoming' response headersDecoder
                           hasBody bodyRead headersDone
              end
        end
    end
  else (response, None).

(** What the operation meets outside this package: the outcome of each call
    that can fail before the response is read, and the connection the peer
    answers with once the given bytes were written. *)
Record Network : Type := mkNetwork {
  LookUp : option error;
  DialTimeout : option error;
  OpenFile : option error;
  ConnWrite : option error;
  peer : bytes -> Conn
}.

Definition SendHTTP2Request (D : Decoder) (wire : Frame -> bytes)
  (net : Network) (keyLogFile : string) (request : HTTPMessage)
  : HTTPMessage * option error :=
  match LookUp net with Some err => (noMessage, Some err) | None =>
  match DialTimeout net with Some err => (noMessage, Some err) | None =>
  match (if String.eqb keyLogFile "" then None else OpenFile net) with
  | Some err => (noMessage, Some err)
  | None =>
  match ConnWrite net with Some err => (noMessage, Some err) | None =>
  let c := peer net (prepareHTTP2Request wire request) in
  readLoop D (readErr c) (incoming c) noMessage (NewDecoder D)
           false false false
  end end end end.

End Http2.

Module Rfc7541.

(** ** Header decompression, from RFC 7541

    The decompressor of the [hpack] library is not part of this repository.
    This is the decoding procedure of RFC 7541 for the representations that
    need neither the indexing tables nor the Huffman code: a literal header
    field with a new name in its three forms (Sections 6.2.1 to 6.2.3 with
    index 0), its strings sent as raw octets (Section 5.2 with H = 0), their
    lengths as prefixed integers (Section 5.1).  It rejects everything
    else. *)

(** Section 5.1, the octets after a saturated prefix: [I] is the value so
    far, [M] the weight of the next seven bits. *)
Fixpoint decodeContinuation (bs : bytes) (M I : Z) : option (Z * bytes) :=
  match bs with
  | [] => None
  | b :: rest =>
      let I := I + Z.land b 127 * 2 ^ M in
      if Z.land b 128 =? 128 then decodeContinuation rest (M + 7) I
      else Some (I, rest)
  end.

(** Section 5.1, an integer with an [N]-bit prefix. *)
Definition decodeInteger (N : Z) (bs : bytes) : option (Z * bytes) :=
  match bs with
  | [] => None
  | b :: rest =>
      let I := Z.land b (2 ^ N - 1) in
      if I <? 2 ^ N - 1 then Some (I, rest)
      else decodeContinuation rest 0 I
  end.

(** Section 5.2, a string literal that is not Huffman coded. *)
Definition decodeString (bs : bytes) : option (bytes * bytes) :=
  match bs with
  | [] => None
  | b :: _ =>
      if Z.land b 128 =? 128 then None
      else
        match decodeInteger 7 bs with
        | None => None
        | Some (n, rest) =>
            if n <=? len rest then
              Some (firstn (Z.to_nat n) rest, skipn (Z.to_nat n) rest)
            else None
        end
  end.

(** Section 6.2, a literal header field with a new name: with incremental
    indexing ([0x40]), without indexing ([0x00]), never indexed ([0x10]). *)
Definition decodeField (bs : bytes) : option (Header * bytes) :=
  match bs with
  | [] => None
  | b :: rest =>
      if (b =? 0x40) || (b =? 0x00) || (b =? 0x10) then
        match decodeString rest with
        | None => None
        | Some (name, rest) =>
            match decodeString rest with
            | None => None
            | Some (value, rest) =>
                Some ({| Name := name; Value := value |}, rest)
            end
        end
      else None
  end.

(** A header block is a sequence of representations; a field takes at least
    one octet, so the length of the block bounds their number. *)
Fixpoint decodeFields (fuel : nat) (bs : bytes) : option (list Header) :=
  match bs, fuel with
  | [], _ => Some []
  | _ :: _, O => None
  | _ :: _, S fuel =>
      match decodeField bs with
      | None => None
      | Some (h, rest) =>
          match decodeFields fuel rest with
          | None => None
          | Some hs => Some (h :: hs)
          end
      end
  end.

Definition decodeBlock (bs : bytes) : option (list Header) :=
  decodeFields (length bs) bs.

(** The decompressor as the decode loops call it, for fragments that hold a
    whole number of fields. *)
Definition decoder : Decoder :=
  {| dec_state := unit;
     NewDecoder := tt;
     Write := fun st p =>
                match decodeBlock p with
                | Some fields => (st, fields, None)
                | None => (st, [], Some (LibError None 0))
                end |}.

(** *** The integer representation in the words of the specification

    A value below 127 is one byte; a larger one is the byte 127 followed by
    the value minus 127 in groups of seven bits, least significant first,
    with the high bit set on all but the last. *)
Equations? septets (v : Z) : bytes by wf (Z.to_nat v) lt :=
septets v with Z_lt_dec v 128 := {
  | left _ => [v]
  | right _ => (128 + v mod 128) :: septets (v / 128) }.
Proof.
  apply Z2Nat.inj_lt; Z.div_mod_to_equations; lia.
Qed.

Definition prefixInt7 (v : Z) : bytes :=
  if v <? 127 then [v] else 127 :: septets (v - 127).

Definition literalField (h : Header) : bytes :=
  0x10 :: prefixInt7 (len (Name h)) ++ Name h
       ++ prefixInt7 (len (Value h)) ++ Value h.

End Rfc7541.

Module Http3.

(** ** Package http3: the variable-length integer codec *)

Definition maxVarInt1 : Z := 63.
Definition maxVarInt2 : Z := 16383.
Definition maxVarInt4 : Z := 1073741823.
Definition maxVarInt8 : Z := 4611686018427387903.

Definition readVarInt : Read Z :=
  firstByte <- ReadByte ;;
  let intLen := Z.shiftl 1 (Z.shiftr (Z.land firstByte 0xc0) 6) in
  let b1 := Z.land firstByte (0xff - 0xc0) in
  if intLen =? 1 then ret (uint64 b1) else
  b2 <- ReadByte ;;
  if intLen =? 2 then ret (add64 (uint64 b2) (shl64 (uint64 b1) 8)) else
  b3 <- ReadByte ;;
  b4 <- ReadByte ;;
  if intLen =? 4 then
    ret (add64 (add64 (add64 (uint64 b4) (shl64 (uint64 b3) 8))
                      (shl64 (uint64 b2) 16))
               (shl64 (uint64 b1) 24))
  else
  b5 <- ReadByte ;;
  b6 <- ReadByte ;;
  b7 <- ReadByte ;;
  b8 <- ReadByte ;;
  ret (add64 (add64 (add64 (add64 (add64 (add64 (add64
        (uint64 b8) (shl64 (uint64 b7) 8)) (shl64 (uint64 b6) 16))
        (shl64 (uint64 b5) 24)) (shl64 (uint64 b4) 32))
        (shl64 (uint64 b3) 40)) (shl64 (uint64 b2) 48))
        (shl64 (uint64 b1) 56)).

Definition writeVarInt (b : bytes) (i : Z) : completion bytes :=
  if i <=? maxVarInt1 then
    Returns (b ++ [uint8 i])
  else if i <=? maxVarInt2 then
    Returns (b ++ [Z.lor (uint8 (Z.shiftr i 8)) 0x40; uint8 i])
  else if i <=? maxVarInt4 then
    Returns (b ++ [Z.lor (uint8 (Z.shiftr i 24)) 0x80; uint8 (Z.shiftr i 16);
                   uint8 (Z.shiftr i 8); uint8 i])
  else if i <=? maxVarInt8 then
    Returns (b ++ [Z.lor (uint8 (Z.shiftr i 56)) 0xc0; uint8 (Z.shiftr i 48);
                   uint8 (Z.shiftr i 40); uint8 (Z.shiftr i 32);
                   uint8 (Z.shiftr i 24); uint8 (Z.shiftr i 16);
                   uint8 (Z.shiftr i 8); uint8 i])
  else
    Panics "%#x doesn't fit into 62 bits" i.

(** [writeVarInt] on a fresh buffer; the panic, which leaves no bytes, gives
    the empty string. *)
Definition varint (i : Z) : bytes :=
  match writeVarInt [] i with
  | Returns bs => bs
  | Panics _ _ => []
  end.

(** The four forms: the number of bytes and the largest value each holds. *)
Definition forms : list (Z * Z) :=
  [(1, maxVarInt1); (2, maxVarInt2); (4, maxVarInt4); (8, maxVarInt8)].

(** The number of bytes of the smallest form that holds [i]. *)
Definition class_len (i : Z) : Z :=
  if i <=? maxVarInt1 then 1
  else if i <=? maxVarInt2 then 2
  else if i <=? maxVarInt4 then 4
  else 8.

(** *** Non-minimal forms, from the wire format's description

    The [w]-byte big-endian representation of [v], and the same with the two
    class bits of width [w] set in its first byte. *)
Fixpoint big_endian (w : nat) (v : Z) : bytes :=
  match w with
  | O => []
  | S k => (v / 256 ^ Z.of_nat k) mod 256 :: big_endian k v
  end.

Definition class_bits (w : nat) : Z :=
  match w with
  | 1%nat => 0x00
  | 2%nat => 0x40
  | 4%nat => 0x80
  | _ => 0xc0
  end.

Definition with_class_bits (w : nat) (bs : bytes) : bytes :=
  match bs with
  | [] => []
  | b :: rest => Z.lor b (class_bits w) :: rest
  end.

Definition wide_form (w : nat) (v : Z) : bytes :=
  with_class_bits w (big_endian w v).

(** ** Package http3: frames, the request encoder, the decode loop *)

(** [types.HttpRequest] and [types.HttpResponse]; the fields of the response
    are [Headers] and [Body] in the source too. *)
Record HttpRequest : Type := mkRequest { Headers : list Header; Body : bytes }.
Record HttpResponse : Type :=
  mkResponse { RespHeaders : list Header; RespBody : bytes }.

Record http3Frame : Type := mkFrame { Type' : Z; Len : Z; Data : bytes }.

(** [int(t)] for a [uint64]. *)
Definition int (t : Z) : Z := if t <? 2 ^ 63 then t else t - 2 ^ 64.

(** [maxAlloc] of package runtime (malloc.go), the limit of the allocator:
    [1 << heapAddrBits], where heap addresses have 48 bits, as on the
    64-bit platforms whose [int] is the one above. *)
Definition maxAlloc : Z := 2 ^ 48.

(** [make([]byte, l)] panics when [l] is above the limit of the allocator,
    before anything is read; below it the slice is taken to be allocated,
    and [io.ReadFull] into it is [ReadFull l]. *)
Definition readFrame (b : Reader)
  : completion (result (http3Frame * Reader)) :=
  match readVarInt b with
  | Err err => Returns (Err err)
  | Ok (t, b) =>
      match readVarInt b with
      | Err err => Returns (Err err)
      | Ok (l, b) =>
          if maxAlloc <? l then
            Panics "runtime error: makeslice: len out of range" 0
          else
            match ReadFull l b with
            | Err err => Returns (Err err)
            | Ok (data, b) =>
                Returns (Ok ({| Type' := int t; Len := l; Data := data |}, b))
            end
      end
  end.

(** The [for] loop of [encodeHeaders]: what the compressor has written to
    [qpackBuf] after the last field. *)
Definition writeFields (E : Encoder) (headers : list Header) : bytes :=
  snd (fold_left (fun '(e, qpackBuf) h =>
                    let '(e', out) := WriteField E e h in
                    (e', qpackBuf ++ out))
                 headers (NewEncoder E, [])).

Definition encodeHeaders (E : Encoder) (headers : list Header)
  : completion bytes :=
  let qpackBuf := writeFields E headers in
  headersFrame <-! writeVarInt [] 0x1 ;;
  headersFrame <-! writeVarInt headersFrame (uint64 (len qpackBuf)) ;;
  Returns (headersFrame ++ qpackBuf).

Definition encodeBody (body : bytes) : completion (list bytes) :=
  if len body =? 0 then Returns []
  else
    buf <-! writeVarInt [] 0x00 ;;
    buf <-! writeVarInt buf (uint64 (len body)) ;;
    Returns [buf ++ body].

Definition prepareHTTP3Request (E : Encoder) (request : HttpRequest)
  : completion (list bytes) :=
  headersFrame <-! encodeHeaders E (Headers request) ;;
  bodyFrames <-! encodeBody (Body request) ;;
  Returns ([headersFrame] ++ bodyFrames).

(** Every frame read takes at least its type byte from the stream: the
    measure of the decode loop. *)
Lemma ReadByte_consumes (r r' : Reader) (b : byte) :
  ReadByte r = Ok (b, r') ->
  (List.length (pending r') < List.length (pending r))%nat
  /\ closing r' = closing r.
Proof.
  unfold ReadByte. destruct (pending r) as [|x rest] eqn:E; [discriminate|].
  intros [= <- <-]. cbn. split; [lia | reflexivity].
Qed.

Lemma readVarInt_consumes (r r' : Reader) (v : Z) :
  readVarInt r = Ok (v, r') ->
  (List.length (pending r') < List.length (pending r))%nat.
Proof.
  unfold readVarInt, bind, ret.
  repeat match goal with
         | |- context [ReadByte ?x] =>
             let E := fresh "E" in
             destruct (ReadByte x) as [[? ?]|?] eqn:E; [|discriminate];
             apply ReadByte_consumes in E; destruct E
         | |- context [if ?c then _ else _] => destruct c
         | |- Ok _ = Ok _ -> _ => intros [= <- <-]; lia
         end.
Qed.

Lemma readFrame_consumes (r r' : Reader) (f : http3Frame) :
  readFrame r = Returns (Ok (f, r')) ->
  (List.length (pending r') < List.length (pending r))%nat.
Proof.
  unfold readFrame.
  destruct (readVarInt r) as [[t r1]|] eqn:E1; [|discriminate].
  destruct (readVarInt r1) as [[l r2]|] eqn:E2; [|discriminate].
  apply readVarInt_consumes in E1. apply readVarInt_consumes in E2.
  destruct (maxAlloc <? l); [discriminate|].
  unfold ReadFull.
  destruct (l <=? len (pending r2)).
  - intros [= <- <-]. cbn [pending].
    pose proof (length_skipn (Z.to_nat l) (pending r2)). lia.
  - destruct (pending r2); destruct (closing r2); discriminate.
Qed.

(** The [for] loop of [SendHTTP3Request] with its three variables
    [headers], [body] and [decoder]; [ctxDone] is what [ctx.Err() != nil]
    answers when a read has failed.  A panic of [readFrame] leaves the
    loop and the function. *)
Equations? receive (D : Decoder) (ctxDone : bool) (headers : list Header)
  (body : bytes) (decoder : dec_state D) (b : Reader)
  : completion (option HttpResponse * option error)
  by wf (List.length (pending b)) lt :=
receive D ctxDone headers body decoder b with inspect (readFrame b) := {
  | exist _ (Panics format arg) _ => Panics format arg
  | exist _ (Returns (Err err)) _ =>
      if ctxDone then Returns (None, Some (Errorf "timeout" []))
      else
        match err with
        | io_EOF =>
            Returns (Some {| RespHeaders := headers; RespBody := body |},
                     None)
        | LibError (Some true) _ =>
            Returns (None, Some (Errorf "ConnDropError{err}" []))
        | _ => Returns (None, Some err)
        end
  | exist _ (Returns (Ok (frame, b'))) Hread =>
      if Type' frame =? 0x0 then
        receive D ctxDone headers (body ++ Data frame) decoder b'
      else if Type' frame =? 0x1 then
        match Write D decoder (Data frame) with
        | (_, _, Some err) => Returns (None, Some err)
        | (decoder', emitted, None) =>
            receive D ctxDone (headers ++ emitted) body decoder' b'
        end
      else
        receive D ctxDone headers body decoder b' }.
Proof.
  all: apply readFrame_consumes in Hread; exact Hread.
Qed.

(** What the operation meets outside this package: the outcome of each call
    that can fail before the response is read ([None] for success), the
    stream the peer answers with once the given bytes were written to the
    request stream, and the state of the deadline when a read fails. *)
Record Network : Type := mkNetwork {
  LookUp : option error;
  Atoi : option error;
  ListenPacket : option error;
  DialEarlyContext : option error;
  OpenUniStream : option error;
  ControlWrite : option error;
  OpenStream : option error;
  Close : option error;
  peer : bytes -> Reader;
  ctxDone : bool
}.

Definition setupSession (net : Network) : option error :=
  match OpenUniStream net with
  | Some err => Some err
  | None =>
      match ControlWrite net with
      | Some err => Some err
      | None => None
      end
  end.

Definition SendHTTP3Request (D : Decoder) (E : Encoder) (net : Network)
  (request : HttpRequest) : completion (option HttpResponse * option error) :=
  match LookUp net with Some err => Returns (None, Some err) | None =>
  match Atoi net with
  | Some err => Returns (None, Some (Wrapf "invalid port: %w" err))
  | None =>
  match ListenPacket net with Some err => Returns (None, Some err) | None =>
  match DialEarlyContext net with Some err => Returns (None, Some err) | None =>
  match setupSession net with Some err => Returns (None, Some err) | None =>
  match OpenStream net with Some err => Returns (None, Some err) | None =>
  frames <-! prepareHTTP3Request E request ;;
  match Close net with Some err => Returns (None, Some err) | None =>
  receive D (ctxDone net) [] [] (NewDecoder D) (peer net (concat frames))
  end end end end end end end.

(** A peer that sends the bytes of the request stream back and closes its
    side, met after a setup in which every call succeeds and before the
    deadline. *)
Definition loopback : Network :=
  {| LookUp := None; Atoi := None; ListenPacket := None;
     DialEarlyContext := None; OpenUniStream := None; ControlWrite := None;
     OpenStream := None; Close := None;
     peer := fun written => mkReader written io_EOF;
     ctxDone := false |}.

End Http3.

(** A compressor to run the loop on: every field written by the literal
    writer of package http2, which [Rfc7541.decoder] reads back. *)
Definition literalEncoder : Encoder :=
  {| enc_state := unit;
     NewEncoder := tt;
     WriteField := fun st h => (st, Http2.hpackAppendHeader [] h) |}.

(** A request with three header fields and a body of ten bytes. *)
Definition sampleRequest : Http3.HttpRequest :=
  {| Http3.Headers :=
       [mkHeader [0x3a; 0x6d] [0x47; 0x45; 0x54];
        mkHeader [0x3a; 0x70] [0x2f];
        mkHeader [0x78; 0x2d; 0x69; 0x64] []];
     Http3.Body := [1; 2; 3; 4; 5; 6; 7; 8; 9; 10] |}.

(** An HTTP/2 peer that answers with a header block of one field, three
    bytes of body and then resets the stream with code 8. *)
Definition resettingPeer : Http2.Network :=
  {| Http2.LookUp := None; Http2.DialTimeout := None; Http2.OpenFile := None;
     Http2.ConnWrite := None;
     Http2.peer := fun _ =>
       {| Http2.incoming :=
            [Http2.HeadersFrame
               {| Http2.Flags := Http2.FlagHeadersEndHeaders;
                  Http2.StreamID := 1 |}
               (Rfc7541.literalField (mkHeader [0x3a; 0x73] [0x32; 0x30]));
             Http2.DataFrame {| Http2.Flags := 0; Http2.StreamID := 1 |}
                             [1; 2; 3];
             Http2.RSTStreamFrame {| Http2.Flags := 0; Http2.StreamID := 1 |}
                                  8];
          Http2.readErr := io_EOF |} |}.

(** An HTTP/3 peer that answers with a HEADERS frame of one field and a DATA
    frame that announces three bytes and brings one. *)
Definition truncatingPeer : Http3.Network :=
  {| Http3.LookUp := None; Http3.Atoi := None; Http3.ListenPacket := None;
     Http3.DialEarlyContext := None; Http3.OpenUniStream := None;
     Http3.ControlWrite := None; Http3.OpenStream := None;
     Http3.Close := None;
     Http3.peer := fun _ =>
       mkReader ([0x01; 0x07]
                 ++ Rfc7541.literalField (mkHeader [0x3a; 0x73] [0x32; 0x30])
                 ++ [0x00; 0x03; 0x01])
                io_EOF;
     Http3.ctxDone := false |}.


(** * Further definitions

    What the properties beyond the ones above need to be stated. *)

(** [intLen] of [readVarInt]: the number of bytes of a variable-length
    integer, read off its first byte. *)
Definition intLen (firstByte : Z) : Z :=
  Z.shiftl 1 (Z.shiftr (Z.land firstByte 0xc0) 6).

(** The bytes of one HTTP/3 frame on the stream, as [encodeHeaders] and
    [encodeBody] lay them out: type, length, payload. *)
Definition frameBytes (frame : Z * bytes) : bytes :=
  Http3.varint (fst frame) ++ Http3.varint (len (snd frame)) ++ snd frame.

(** A frame whose type fits a variable-length integer and whose payload has
    a length the runtime allocates, so that [make] returns when the frame
    is read. *)
Definition frameFits (frame : Z * bytes) : Prop :=
  0 <= fst frame <= Http3.maxVarInt8 /\ len (snd frame) <= Http3.maxAlloc.

(** The payloads of the frames of type [t], in order. *)
Definition payloadsOf (t : Z) (frames : list (Z * bytes)) : list bytes :=
  map snd (filter (fun frame => fst frame =? t) frames).

(** A decompressor fed a sequence of block fragments by successive calls of
    [Write], as both decode loops feed it: the fields emitted up to the
    first failure, and that failure. *)
Fixpoint feed (D : Decoder) (decoder : dec_state D) (fragments : list bytes)
  : list Header * option error :=
  match fragments with
  | [] => ([], None)
  | fragment :: fragments' =>
      match Write D decoder fragment with
      | (_, _, Some err) => ([], Some err)
      | (decoder', emitted, None) =>
          let '(fields, err) := feed D decoder' fragments' in
          (emitted ++ fields, err)
      end
  end.

(** A header block that a peer sends on stream 1 in fragments: one HEADERS
    frame and, when the block is cut, CONTINUATION frames, with END_HEADERS
    on the last frame only. *)
Fixpoint continuationFrames (fragments : list bytes) : list Http2.Frame :=
  match fragments with
  | [] => []
  | [last] =>
      [Http2.ContinuationFrame
         {| Http2.Flags := Http2.FlagContinuationEndHeaders;
            Http2.StreamID := 1 |} last]
  | fragment :: fragments' =>
      Http2.ContinuationFrame {| Http2.Flags := 0; Http2.StreamID := 1 |}
                              fragment
      :: continuationFrames fragments'
  end.

Definition headerBlockFrames (endStream : bool) (first : bytes)
  (more : list bytes) : list Http2.Frame :=
  Http2.WriteHeaders 1 first endStream
    (match more with [] => true | _ :: _ => false end)
  :: continuationFrames more.

(** The frames [prepareHTTP2Request] asks the framer for, in order. *)
Definition requestFrames (request : Http2.HTTPMessage) : list Http2.Frame :=
  [Http2.WriteSettings
     [{| Http2.ID := Http2.SettingInitialWindowSize;
         Http2.Val := 2 ^ 30 - 1 |}];
   Http2.WriteWindowUpdate 0 (2 ^ 30 - 2 ^ 16 - 1);
   Http2.WriteHeaders 1
     (fold_left Http2.hpackAppendHeader (Http2.Headers request) [])
     (len (Http2.Body request) =? 0) true]
  ++ Http2.dataFrames (Http2.Body request)
  ++ [Http2.WriteSettingsAck].

(** A frame the HTTP/2 decode loop passes over: not GOAWAY and not on
    stream 1. *)
Definition passedOver (f : Http2.Frame) : bool :=
  match f with
  | Http2.GoAwayFrame _ _ _ _ => false
  | _ => negb (Http2.StreamID (Http2.frameHeader f) =? 1)
  end.

(** An HTTP/2 message with three header fields, one of them with a value of
    200 bytes, and a body of 70000 bytes. *)
Definition sampleMessage : Http2.HTTPMessage :=
  {| Http2.Headers :=
       [mkHeader [0x3a; 0x6d] [0x47; 0x45; 0x54];
        mkHeader [0x78] (repeat 0x61 200);
        mkHeader [] []];
     Http2.Body := repeat 0x2a 70000 |}.

Module Cmd.

(** ** Package cmd: the hook that reads the common flags

    [strings.ToLower], [strings.TrimSpace] and [url.Parse] belong to the
    standard library and [types.H2], [types.H3] to a package that is not in
    this repository: they are taken as given. *)

Record Platform : Type := mkPlatform {
  ToLower : bytes -> bytes;
  TrimSpace : bytes -> bytes;
  URL : Type;
  Parse : bytes -> result URL;
  H2 : Z;
  H3 : Z
}.

(** [strings.Split] for a separator of one byte: the substrings between the
    separators, one more than there are separators. *)
Fixpoint Split (s : bytes) (sep : byte) : list bytes :=
  match s with
  | [] => [[]]
  | c :: s' =>
      if c =? sep then [] :: Split s' sep
      else
        match Split s' sep with
        | part :: parts => (c :: part) :: parts
        | [] => [[c]]
        end
  end.

Record commonArguments (P : Platform) : Type := mkCommonArguments {
  addIdHeader : bool;
  commonHeaders : list Header;
  keyLogFile : bytes;
  proto : Z;
  timeout : Z;
  target : option (URL P)
}.
Arguments addIdHeader {P} c.
Arguments commonHeaders {P} c.
Arguments keyLogFile {P} c.
Arguments proto {P} c.
Arguments timeout {P} c.
Arguments target {P} c.

(** An error of the hook: one built by [fmt.Errorf] from a format and a
    string, or the error of [url.Parse]. *)
Inductive hookError : Type :=
| ErrorfString (format : string) (arg : bytes)
| ParseError (e : error).

(** The field a header flag stands for. *)
Definition headerField (P : Platform) (parts : list bytes) : Header :=
  {| Name := TrimSpace P (ToLower P (nth 0 parts []));
     Value := TrimSpace P (nth 1 parts []) |}.

(** The [for _, header := range headers] loop, on the global [commonArgs]. *)
Fixpoint addHeaders (P : Platform) (headers : list bytes)
  (commonArgs : commonArguments P)
  : commonArguments P * option hookError :=
  match headers with
  | [] => (commonArgs, None)
  | header :: headers' =>
      let parts := Split header 0x3a in
      if negb (len parts =? 2) then
        (commonArgs,
         Some (ErrorfString
                 "invalid header '%s', expected syntax: 'x-extra-header: val'"
                 header))
      else
        addHeaders P headers'
          {| addIdHeader := addIdHeader commonArgs;
             commonHeaders :=
               commonHeaders commonArgs ++ [headerField P parts];
             keyLogFile := keyLogFile commonArgs;
             proto := proto commonArgs;
             timeout := timeout commonArgs;
             target := target commonArgs |}
  end.

(** [rootCmd.PersistentPreRunE] on the globals [headers], [proto] and
    [commonArgs]; "h2" and "h3" are the bytes 0x68 0x32 and 0x68 0x33, and
    [args[0]] panics when there is no argument. *)
Definition PersistentPreRunE (P : Platform) (headers : list bytes)
  (protoFlag : bytes) (args : list bytes) (commonArgs : commonArguments P)
  : completion (commonArguments P * option hookError) :=
  match addHeaders P headers commonArgs with
  | (commonArgs, Some err) => Returns (commonArgs, Some err)
  | (commonArgs, None) =>
      match
        (if list_eq_dec Z.eq_dec protoFlag [0x68; 0x32] then Some (H2 P)
         else if list_eq_dec Z.eq_dec protoFlag [0x68; 0x33] then Some (H3 P)
         else None)
      with
      | None =>
          Returns (commonArgs,
                   Some (ErrorfString "unknown protocol '%s'" protoFlag))
      | Some protoValue =>
          let commonArgs :=
            {| addIdHeader := addIdHeader commonArgs;
               commonHeaders := commonHeaders commonArgs;
               keyLogFile := keyLogFile commonArgs;
               proto := protoValue;
               timeout := timeout commonArgs;
               target := target commonArgs |} in
          match args with
          | [] =>
              Panics "runtime error: index out of range [0] with length 0" 0
          | arg0 :: _ =>
              match Parse P arg0 with
              | Err err => Returns (commonArgs, Some (ParseError err))
              | Ok parsed =>
                  Returns ({| addIdHeader := addIdHeader commonArgs;
                              commonHeaders := commonHeaders commonArgs;
                              keyLogFile := keyLogFile commonArgs;
                              proto := proto commonArgs;
                              timeout := timeout commonArgs;
                              target := Some parsed |}, None)
              end
          end
      end
  end.

End Cmd.

(** A platform to run the hook on: ASCII letters lowered, ASCII blanks
    trimmed at both ends, every URL accepted as it is. *)
Definition asciiLower (s : bytes) : bytes :=
  map (fun c => if (0x41 <=? c) && (c <=? 0x5a) then c + 32 else c) s.

Fixpoint trimLeft (s : bytes) : bytes :=
  match s with
  | c :: s' => if (c =? 0x20) || (c =? 0x09) then trimLeft s' else s
  | [] => []
  end.

Definition asciiTrim (s : bytes) : bytes :=
  rev (trimLeft (rev (trimLeft s))).

Definition samplePlatform : Cmd.Platform :=
  {| Cmd.ToLower := asciiLower; Cmd.TrimSpace := asciiTrim;
     Cmd.URL := bytes; Cmd.Parse := fun s => Ok s;
     Cmd.H2 := 0; Cmd.H3 := 1 |}.

Definition noArguments : Cmd.commonArguments samplePlatform :=
  {| Cmd.addIdHeader := false; Cmd.commonHeaders := [];
     Cmd.keyLogFile := []; Cmd.proto := 0; Cmd.timeout := 10;
     Cmd.target := None |}.

(** A header flag as the usage text of the flag has it: a name, a colon, a
    value. *)
Definition headerFlag (field : bytes * bytes) : bytes :=
  fst field ++ 0x3a :: snd field.

(** The number of colons of a flag. *)
Definition colons (header : bytes) : nat := count_occ Z.eq_dec header 0x3a.

(** * Properties *)

(** ** Bit operations on bytes, by enumeration *)

Lemma all_below_sound (n : nat) (f : Z -> bool) :
  all_below n f = true -> forall z, 0 <= z < Z.of_nat n -> f z = true.
Proof.
  induction n as [|k IH]; intros Hall z Hz.
  - lia.
  - cbn [all_below] in Hall. apply andb_true_iff in Hall as [Hk Hrest].
    destruct (Z.eq_dec z (Z.of_nat k)) as [->|Hne]; [exact Hk|].
    apply IH; [exact Hrest | lia].
Qed.

Lemma byte_class (b : Z) :
  is_byte b ->
  Z.shiftr (Z.land b 0xc0) 6 = b / 64 /\ Z.land b (0xff - 0xc0) = b mod 64.
Proof.
  intros Hb.
  assert (H : ((Z.shiftr (Z.land b 0xc0) 6 =? b / 64)
               && (Z.land b (0xff - 0xc0) =? b mod 64))%bool = true).
  { revert b Hb.
    apply (all_below_sound 256
             (fun b => ((Z.shiftr (Z.land b 0xc0) 6 =? b / 64)
                        && (Z.land b (0xff - 0xc0) =? b mod 64))%bool)).
    vm_compute. reflexivity. }
  apply andb_true_iff in H as [H1 H2].
  split; apply Z.eqb_eq; assumption.
Qed.

Lemma lor_class_bits (h : Z) :
  0 <= h < 64 ->
  Z.lor h 0x40 = h + 64 /\ Z.lor h 0x80 = h + 128 /\ Z.lor h 0xc0 = h + 192.
Proof.
  intros Hh.
  assert (H : ((Z.lor h 0x40 =? h + 64) && (Z.lor h 0x80 =? h + 128)
               && (Z.lor h 0xc0 =? h + 192))%bool = true).
  { revert h Hh.
    apply (all_below_sound 64
             (fun h => ((Z.lor h 0x40 =? h + 64) && (Z.lor h 0x80 =? h + 128)
                        && (Z.lor h 0xc0 =? h + 192))%bool)).
    vm_compute. reflexivity. }
  apply andb_true_iff in H as [H12 H3].
  apply andb_true_iff in H12 as [H1 H2].
  repeat split; apply Z.eqb_eq; assumption.
Qed.

Ltac euclid := Z.div_mod_to_equations; lia.

Ltac ok_value :=
  match goal with
  | |- Ok (?a, ?r) = Ok (?b, ?r) => cut (a = b); [intros ->; reflexivity|]
  end.

Ltac wrap_off :=
  unfold add64, shl64, sub64, uint64, uint8 in *;
  rewrite ?Z.shiftl_mul_pow2, ?Z.shiftr_div_pow2 in * by lia;
  repeat match goal with
         | |- context [2 ^ ?k] =>
             let v := eval vm_compute in (2 ^ k) in change (2 ^ k) with v in *
         | H : context [2 ^ ?k] |- _ =>
             let v := eval vm_compute in (2 ^ k) in change (2 ^ k) with v in *
         end.

(** ** The variable-length integer codec *)

Section VarInt.
Import Http3.

Variables (rest : bytes) (e : error).

Lemma readVarInt_1 (h : Z) :
  0 <= h < 64 ->
  readVarInt (mkReader (h :: rest) e) = Ok (h, mkReader rest e).
Proof.
  intros Hh. unfold readVarInt, bind, ReadByte, ret. cbn [pending closing].
  destruct (byte_class h) as [Hc Hv]; [unfold is_byte; lia|].
  rewrite Hc, Hv.
  replace (h / 64) with 0 by euclid.
  change (Z.shiftl 1 0 =? 1) with true. cbv beta iota. cbn [pending closing].
  ok_value. wrap_off. euclid.
Qed.

Lemma readVarInt_2 (h b2 : Z) :
  0 <= h < 64 -> is_byte b2 ->
  readVarInt (mkReader (h + 64 :: b2 :: rest) e)
  = Ok (h * 2 ^ 8 + b2, mkReader rest e).
Proof.
  unfold is_byte. intros Hh H2.
  unfold readVarInt, bind, ReadByte, ret. cbn [pending closing].
  destruct (byte_class (h + 64)) as [Hc Hv]; [unfold is_byte; lia|].
  rewrite Hc, Hv.
  replace ((h + 64) / 64) with 1 by euclid.
  replace ((h + 64) mod 64) with h by euclid.
  change (Z.shiftl 1 1 =? 1) with false.
  change (Z.shiftl 1 1 =? 2) with true. cbv beta iota. cbn [pending closing].
  ok_value. wrap_off. euclid.
Qed.

Lemma readVarInt_4 (h b2 b3 b4 : Z) :
  0 <= h < 64 -> is_byte b2 -> is_byte b3 -> is_byte b4 ->
  readVarInt (mkReader (h + 128 :: b2 :: b3 :: b4 :: rest) e)
  = Ok (h * 2 ^ 24 + b2 * 2 ^ 16 + b3 * 2 ^ 8 + b4, mkReader rest e).
Proof.
  unfold is_byte. intros Hh H2 H3 H4.
  unfold readVarInt, bind, ReadByte, ret. cbn [pending closing].
  destruct (byte_class (h + 128)) as [Hc Hv]; [unfold is_byte; lia|].
  rewrite Hc, Hv.
  replace ((h + 128) / 64) with 2 by euclid.
  replace ((h + 128) mod 64) with h by euclid.
  change (Z.shiftl 1 2 =? 1) with false.
  change (Z.shiftl 1 2 =? 2) with false.
  change (Z.shiftl 1 2 =? 4) with true. cbv beta iota. cbn [pending closing].
  ok_value. wrap_off. euclid.
Qed.

Lemma readVarInt_8 (h b2 b3 b4 b5 b6 b7 b8 : Z) :
  0 <= h < 64 -> is_byte b2 -> is_byte b3 -> is_byte b4 ->
  is_byte b5 -> is_byte b6 -> is_byte b7 -> is_byte b8 ->
  readVarInt
    (mkReader (h + 192 :: b2 :: b3 :: b4 :: b5 :: b6 :: b7 :: b8 :: rest) e)
  = Ok (h * 2 ^ 56 + b2 * 2 ^ 48 + b3 * 2 ^ 40 + b4 * 2 ^ 32
        + b5 * 2 ^ 24 + b6 * 2 ^ 16 + b7 * 2 ^ 8 + b8, mkReader rest e).
Proof.
  unfold is_byte. intros Hh H2 H3 H4 H5 H6 H7 H8.
  unfold readVarInt, bind, ReadByte, ret. cbn [pending closing].
  destruct (byte_class (h + 192)) as [Hc Hv]; [unfold is_byte; lia|].
  rewrite Hc, Hv.
  replace ((h + 192) / 64) with 3 by euclid.
  replace ((h + 192) mod 64) with h by euclid.
  change (Z.shiftl 1 3 =? 1) with false.
  change (Z.shiftl 1 3 =? 2) with false.
  change (Z.shiftl 1 3 =? 4) with false. cbv beta iota. cbn [pending closing].
  ok_value. wrap_off. euclid.
Qed.

End VarInt.

Section VarIntWrite.
Import Http3.

Variable buf : bytes.

Lemma writeVarInt_1 (i : Z) :
  0 <= i <= maxVarInt1 -> writeVarInt buf i = Returns (buf ++ [i]).
Proof.
  unfold maxVarInt1. intros Hi. unfold writeVarInt, maxVarInt1.
  destruct (Z.leb_spec i 63); [|lia].
  do 3 f_equal. wrap_off. euclid.
Qed.

Lemma writeVarInt_2 (i : Z) :
  maxVarInt1 < i <= maxVarInt2 ->
  writeVarInt buf i = Returns (buf ++ [i / 2 ^ 8 + 64; i mod 2 ^ 8]).
Proof.
  unfold maxVarInt1, maxVarInt2. intros Hi.
  unfold writeVarInt, maxVarInt1, maxVarInt2.
  destruct (Z.leb_spec i 63); [lia|].
  destruct (Z.leb_spec i 16383); [|lia].
  destruct (lor_class_bits (i / 2 ^ 8)) as (L & _ & _); [euclid|].
  wrap_off. replace ((i / 256) mod 256) with (i / 256) by euclid.
  rewrite L. reflexivity.
Qed.

Lemma writeVarInt_4 (i : Z) :
  maxVarInt2 < i <= maxVarInt4 ->
  writeVarInt buf i
  = Returns (buf ++ [i / 2 ^ 24 + 128; (i / 2 ^ 16) mod 2 ^ 8;
                     (i / 2 ^ 8) mod 2 ^ 8; i mod 2 ^ 8]).
Proof.
  unfold maxVarInt2, maxVarInt4. intros Hi.
  unfold writeVarInt, maxVarInt1, maxVarInt2, maxVarInt4.
  destruct (Z.leb_spec i 63); [lia|].
  destruct (Z.leb_spec i 16383); [lia|].
  destruct (Z.leb_spec i 1073741823); [|lia].
  destruct (lor_class_bits (i / 2 ^ 24)) as (_ & L & _); [euclid|].
  wrap_off. replace ((i / 16777216) mod 256) with (i / 16777216) by euclid.
  rewrite L. reflexivity.
Qed.

Lemma writeVarInt_8 (i : Z) :
  maxVarInt4 < i <= maxVarInt8 ->
  writeVarInt buf i
  = Returns (buf ++ [i / 2 ^ 56 + 192; (i / 2 ^ 48) mod 2 ^ 8;
                     (i / 2 ^ 40) mod 2 ^ 8; (i / 2 ^ 32) mod 2 ^ 8;
                     (i / 2 ^ 24) mod 2 ^ 8; (i / 2 ^ 16) mod 2 ^ 8;
                     (i / 2 ^ 8) mod 2 ^ 8; i mod 2 ^ 8]).
Proof.
  unfold maxVarInt4, maxVarInt8. intros Hi.
  unfold writeVarInt, maxVarInt1, maxVarInt2, maxVarInt4, maxVarInt8.
  destruct (Z.leb_spec i 63); [lia|].
  destruct (Z.leb_spec i 16383); [lia|].
  destruct (Z.leb_spec i 1073741823); [lia|].
  destruct (Z.leb_spec i 4611686018427387903); [|lia].
  destruct (lor_class_bits (i / 2 ^ 56)) as (_ & _ & L); [euclid|].
  wrap_off.
  replace ((i / 72057594037927936) mod 256) with (i / 72057594037927936)
    by euclid.
  rewrite L. reflexivity.
Qed.

End VarIntWrite.

Lemma writeVarInt_appends (buf : bytes) (i : Z) :
  0 <= i <= Http3.maxVarInt8 ->
  Http3.writeVarInt buf i = Returns (buf ++ Http3.varint i).
Proof.
  intros Hi. unfold Http3.varint.
  destruct (Z.le_gt_cases i Http3.maxVarInt1);
    [rewrite !writeVarInt_1 by lia; reflexivity|].
  destruct (Z.le_gt_cases i Http3.maxVarInt2);
    [rewrite !writeVarInt_2 by lia; reflexivity|].
  destruct (Z.le_gt_cases i Http3.maxVarInt4);
    [rewrite !writeVarInt_4 by lia; reflexivity|].
  rewrite !writeVarInt_8 by lia; reflexivity.
Qed.

Lemma varint_len (i : Z) :
  0 <= i <= Http3.maxVarInt8 -> len (Http3.varint i) = Http3.class_len i.
Proof.
  intros Hi. unfold Http3.varint, Http3.class_len.
  destruct (Z.leb_spec i Http3.maxVarInt1);
    [rewrite writeVarInt_1 by lia; reflexivity|].
  destruct (Z.leb_spec i Http3.maxVarInt2);
    [rewrite writeVarInt_2 by lia; reflexivity|].
  destruct (Z.leb_spec i Http3.maxVarInt4);
    [rewrite writeVarInt_4 by lia; reflexivity|].
  rewrite writeVarInt_8 by lia; reflexivity.
Qed.

Lemma readVarInt_varint (i : Z) (rest : bytes) (e : error) :
  0 <= i <= Http3.maxVarInt8 ->
  Http3.readVarInt (mkReader (Http3.varint i ++ rest) e)
  = Ok (i, mkReader rest e).
Proof.
  intros Hi. unfold Http3.varint.
  unfold Http3.maxVarInt8 in Hi.
  destruct (Z.le_gt_cases i Http3.maxVarInt1) as [H1|H1].
  { rewrite writeVarInt_1 by lia. unfold Http3.maxVarInt1 in H1.
    cbn [app]. apply readVarInt_1. lia. }
  destruct (Z.le_gt_cases i Http3.maxVarInt2) as [H2|H2].
  { rewrite writeVarInt_2 by lia.
    unfold Http3.maxVarInt1, Http3.maxVarInt2 in *. cbn [app].
    rewrite readVarInt_2 by (unfold is_byte; euclid).
    ok_value. euclid. }
  destruct (Z.le_gt_cases i Http3.maxVarInt4) as [H4|H4].
  { rewrite writeVarInt_4 by lia.
    unfold Http3.maxVarInt2, Http3.maxVarInt4 in *. cbn [app].
    rewrite readVarInt_4 by (unfold is_byte; euclid).
    ok_value. wrap_off. euclid. }
  rewrite writeVarInt_8 by (unfold Http3.maxVarInt8; lia).
  unfold Http3.maxVarInt4 in *. cbn [app].
  rewrite readVarInt_8 by (unfold is_byte; euclid).
  ok_value. wrap_off. euclid.
Qed.

(** C2. Every value of the 62-bit range survives [writeVarInt] followed by
    [readVarInt], whatever follows it on the stream, and is written in 1, 2,
    4 or 8 bytes according to the class boundaries 63, 16383, 1073741823 and
    4611686018427387903. *)
Theorem varint_roundtrip (v : Z) (buf rest : bytes) (e : error) :
  0 <= v <= Http3.maxVarInt8 ->
  Http3.writeVarInt buf v = Returns (buf ++ Http3.varint v)
  /\ Http3.readVarInt (mkReader (Http3.varint v ++ rest) e)
     = Ok (v, mkReader rest e)
  /\ len (Http3.varint v)
     = (if v <=? 63 then 1 else if v <=? 16383 then 2
        else if v <=? 1073741823 then 4 else 8).
Proof.
  intros Hv. split; [|split].
  - apply writeVarInt_appends; exact Hv.
  - apply readVarInt_varint; exact Hv.
  - apply varint_len; exact Hv.
Qed.

Lemma varint_roundtrip_witness :
  Forall (fun v =>
            0 <= v <= Http3.maxVarInt8
            /\ Http3.readVarInt (mkReader (Http3.varint v ++ [7]) io_EOF)
               = Ok (v, mkReader [7] io_EOF))
         [0; 63; 64; 16383; 16384; 1073741823; 1073741824;
          4611686018427387903]
  /\ map (fun v => len (Http3.varint v))
         [0; 63; 64; 16383; 16384; 1073741823; 1073741824;
          4611686018427387903]
     = [1; 1; 2; 2; 4; 4; 8; 8].
Proof.
  split.
  - repeat (apply Forall_cons;
            [split;
             [unfold Http3.maxVarInt8; lia
             |apply (varint_roundtrip _ [] [7] io_EOF);
              unfold Http3.maxVarInt8; lia]|]).
    apply Forall_nil.
  - vm_compute. reflexivity.
Defined.

(** C8. [writeVarInt] uses the smallest of the four forms that holds the
    value: the form it writes is one that holds it, and no form that holds it
    is shorter; a [uint64] above 4611686018427387903 makes it panic, and one
    within the 62-bit range never does. *)
Theorem writeVarInt_smallest_class (i : Z) (buf : bytes) :
  0 <= i < 2 ^ 64 ->
  (i <= Http3.maxVarInt8 ->
   exists bs,
     Http3.writeVarInt buf i = Returns (buf ++ bs)
     /\ (exists largest, In (len bs, largest) Http3.forms /\ i <= largest)
     /\ (forall width largest,
           In (width, largest) Http3.forms -> i <= largest ->
           len bs <= width))
  /\ (Http3.maxVarInt8 < i ->
      Http3.writeVarInt buf i = Panics "%#x doesn't fit into 62 bits" i).
Proof.
  intros Hi. split.
  - intros Hmax. exists (Http3.varint i).
    split; [apply writeVarInt_appends; lia|].
    rewrite varint_len by lia. unfold Http3.class_len, Http3.forms.
    unfold Http3.maxVarInt1, Http3.maxVarInt2, Http3.maxVarInt4,
      Http3.maxVarInt8 in *.
    destruct (Z.leb_spec i 63);
      [|destruct (Z.leb_spec i 16383);
        [|destruct (Z.leb_spec i 1073741823)]];
      (split;
       [eexists; split; [cbn [In]; eauto 6 | lia]
       |intros width largest Hin Hfits; cbn [In] in Hin;
        repeat (destruct Hin as [Hin|Hin]; [injection Hin as <- <-; lia|]);
        contradiction]).
  - intros Hbig. unfold Http3.writeVarInt.
    unfold Http3.maxVarInt1, Http3.maxVarInt2, Http3.maxVarInt4,
      Http3.maxVarInt8 in *.
    repeat match goal with
           | |- context [?a <=? ?b] => destruct (Z.leb_spec a b); [lia|]
           end.
    reflexivity.
Qed.

Lemma writeVarInt_smallest_class_witness :
  0 <= 16384 < 2 ^ 64
  /\ Http3.writeVarInt [] 4611686018427387904
     = Panics "%#x doesn't fit into 62 bits" 4611686018427387904
  /\ exists bs,
       Http3.writeVarInt [9] 16384 = Returns ([9] ++ bs)
       /\ forall width largest,
            In (width, largest) Http3.forms -> 16384 <= largest ->
            len bs <= width.
Proof.
  split; [lia|]. split.
  - apply (writeVarInt_smallest_class 4611686018427387904 []);
      [lia | unfold Http3.maxVarInt8; lia].
  - destruct (writeVarInt_smallest_class 16384 [9]) as [Hfit _]; [lia|].
    destruct Hfit as (bs & Hbs & _ & Hmin); [unfold Http3.maxVarInt8; lia|].
    exists bs. split; [exact Hbs | exact Hmin].
Defined.

(** C10. [readVarInt] takes the width from the top two bits of the first
    byte alone and accepts forms that are longer than necessary: for each
    width [w] among 1, 2, 4, 8, the [w]-byte big-endian representation of a
    value below [2 ^ (8 w - 2)], with the class bits of [w] set in its first
    byte, decodes to that value and consumes exactly those [w] bytes, so it
    decodes as the canonical form of the value does. *)
Theorem readVarInt_wide_form (w : nat) (v : Z) (rest : bytes) (e : error) :
  In w [1; 2; 4; 8]%nat ->
  0 <= v < 2 ^ (8 * Z.of_nat w - 2) ->
  len (Http3.wide_form w v) = Z.of_nat w
  /\ Http3.readVarInt (mkReader (Http3.wide_form w v ++ rest) e)
     = Ok (v, mkReader rest e)
  /\ Http3.readVarInt (mkReader (Http3.wide_form w v ++ rest) e)
     = Http3.readVarInt (mkReader (Http3.varint v ++ rest) e).
Proof.
  intros Hw Hv.
  assert (Hdec : Http3.readVarInt (mkReader (Http3.wide_form w v ++ rest) e)
                 = Ok (v, mkReader rest e)).
  { cbn [In] in Hw.
    destruct Hw as [<-|[<-|[<-|[<-|[]]]]];
      unfold Http3.wide_form, Http3.big_endian, Http3.with_class_bits,
        Http3.class_bits;
      cbn [app Z.of_nat Pos.of_succ_nat Pos.succ] in *.
    - change (2 ^ (8 * 1 - 2)) with 64 in Hv.
      replace (Z.lor ((v / 256 ^ 0) mod 256) 0) with v
        by (rewrite Z.lor_0_r; change (256 ^ 0) with 1; euclid).
      apply readVarInt_1. lia.
    - change (2 ^ (8 * 2 - 2)) with 16384 in Hv.
      change (256 ^ 1) with 256. change (256 ^ 0) with 1.
      destruct (lor_class_bits ((v / 256) mod 256)) as (L & _ & _); [euclid|].
      rewrite L. rewrite readVarInt_2 by (unfold is_byte; euclid).
      ok_value. wrap_off. euclid.
    - change (2 ^ (8 * 4 - 2)) with 1073741824 in Hv.
      change (256 ^ 3) with 16777216. change (256 ^ 2) with 65536.
      change (256 ^ 1) with 256. change (256 ^ 0) with 1.
      destruct (lor_class_bits ((v / 16777216) mod 256)) as (_ & L & _);
        [euclid|].
      rewrite L. rewrite readVarInt_4 by (unfold is_byte; euclid).
      ok_value. wrap_off. euclid.
    - change (2 ^ (8 * 8 - 2)) with 4611686018427387904 in Hv.
      change (256 ^ 7) with 72057594037927936.
      change (256 ^ 6) with 281474976710656.
      change (256 ^ 5) with 1099511627776.
      change (256 ^ 4) with 4294967296.
      change (256 ^ 3) with 16777216. change (256 ^ 2) with 65536.
      change (256 ^ 1) with 256. change (256 ^ 0) with 1.
      destruct (lor_class_bits ((v / 72057594037927936) mod 256))
        as (_ & _ & L); [euclid|].
      rewrite L. rewrite readVarInt_8 by (unfold is_byte; euclid).
      ok_value. wrap_off. euclid. }
  split; [|split].
  - cbn [In] in Hw. destruct Hw as [<-|[<-|[<-|[<-|[]]]]]; reflexivity.
  - exact Hdec.
  - rewrite Hdec. symmetry. apply readVarInt_varint.
    assert (2 ^ (8 * Z.of_nat w - 2) <= 2 ^ 62).
    { apply Z.pow_le_mono_r; [lia|].
      cbn [In] in Hw. destruct Hw as [<-|[<-|[<-|[<-|[]]]]]; cbn; lia. }
    unfold Http3.maxVarInt8. change (2 ^ 62) with 4611686018427387904 in *.
    lia.
Qed.

Lemma readVarInt_wide_form_witness :
  Forall (fun w =>
            In w [1; 2; 4; 8]%nat
            /\ 0 <= 5 < 2 ^ (8 * Z.of_nat w - 2)
            /\ Http3.readVarInt (mkReader (Http3.wide_form w 5 ++ [1]) io_EOF)
               = Ok (5, mkReader [1] io_EOF))
         [2; 4; 8]%nat
  /\ Http3.wide_form 4 5 = [128; 0; 0; 5].
Proof.
  split; [|reflexivity].
  repeat (apply Forall_cons;
          [split; [cbn [In]; tauto|];
           split; [cbn; lia|];
           apply (readVarInt_wide_form _ 5 [1] io_EOF);
           [cbn [In]; tauto | cbn; lia]|]).
  apply Forall_nil.
Defined.

(** ** The HTTP/2 request encoder *)

Section BodyLoop.
Import Http2.

Lemma writeBody_step {W : Type} (wire : Frame -> list W) (body : bytes)
  (start : Z) (buf : list W) :
  writeBody wire body start buf
  = if start <? len body then
      let end' := Z.min (start + 65536) (len body) in
      writeBody wire body end'
        (buf ++ wire (WriteData 1 (end' =? len body) (slice body start end')))
    else buf.
Proof.
  rewrite writeBody_equation_1.
  destruct (Z_lt_dec start (len body)) as [Hlt|Hge];
    destruct (Z.ltb_spec start (len body)); try lia;
    [rewrite writeBody_clause_1_equation_1
    |rewrite writeBody_clause_1_equation_2; reflexivity].
  cbv zeta.
  destruct (Z.gtb_spec (start + 65536) (len body)).
  - rewrite Z.min_r by lia. reflexivity.
  - rewrite Z.min_l by lia. reflexivity.
Qed.

Lemma writeBody_trace {W : Type} (wire : Frame -> list W) (body : bytes)
  (n : nat) :
  forall (start : Z) (buf : list W),
    (Z.to_nat (len body - start) <= n)%nat ->
    writeBody wire body start buf
    = buf ++ flat_map wire (framesFrom body start)
    /\ forall pre : list Frame,
        writeBody (fun f => [f]) body start pre
        = pre ++ framesFrom body start.
Proof.
  induction n as [|n IH]; intros start buf Hn.
  - assert (Hnil : framesFrom body start = []).
    { unfold framesFrom. rewrite writeBody_step.
      destruct (Z.ltb_spec start (len body)); [lia | reflexivity]. }
    rewrite Hnil. cbn [flat_map]. split; [|intros pre];
      rewrite writeBody_step;
      (destruct (Z.ltb_spec start (len body)); [lia|]);
      rewrite app_nil_r; reflexivity.
  - destruct (Z.ltb_spec start (len body)) as [Hlt|Hge].
    + set (end' := Z.min (start + 65536) (len body)).
      assert (Hm : (Z.to_nat (len body - end') <= n)%nat) by lia.
      set (F := WriteData 1 (end' =? len body) (slice body start end')).
      assert (Hcons : framesFrom body start = F :: framesFrom body end').
      { unfold framesFrom at 1. rewrite writeBody_step.
        destruct (Z.ltb_spec start (len body)); [|lia].
        cbv zeta. fold end'. fold F.
        destruct (IH end' buf Hm) as [_ Hs]. rewrite Hs. reflexivity. }
      rewrite Hcons. split; [|intros pre];
        rewrite writeBody_step;
        (destruct (Z.ltb_spec start (len body)); [|lia]);
        cbv zeta; fold end'; fold F.
      * destruct (IH end' (buf ++ wire F) Hm) as [Hw _].
        rewrite Hw. cbn [flat_map]. rewrite <- app_assoc. reflexivity.
      * destruct (IH end' buf Hm) as [_ Hs].
        rewrite Hs. rewrite <- app_assoc. reflexivity.
    + assert (Hnil : framesFrom body start = []).
      { unfold framesFrom. rewrite writeBody_step.
        destruct (Z.ltb_spec start (len body)); [lia | reflexivity]. }
      rewrite Hnil. cbn [flat_map]. split; [|intros pre];
        rewrite writeBody_step;
        (destruct (Z.ltb_spec start (len body)); [lia|]);
        rewrite app_nil_r; reflexivity.
Qed.

Lemma framesFrom_unfold (body : bytes) (start : Z) :
  framesFrom body start
  = if start <? len body then
      let end' := Z.min (start + 65536) (len body) in
      WriteData 1 (end' =? len body) (slice body start end')
      :: framesFrom body end'
    else [].
Proof.
  unfold framesFrom at 1. rewrite writeBody_step.
  destruct (Z.ltb_spec start (len body)); [|reflexivity].
  cbv zeta.
  destruct (writeBody_trace (fun f => [f]) body
              (Z.to_nat (len body - Z.min (start + 65536) (len body)))
              (Z.min (start + 65536) (len body)) [] (Nat.le_refl _))
    as [_ Hs].
  rewrite Hs. reflexivity.
Qed.

Lemma slice_length {A : Type} (s : list A) (lo hi : Z) :
  0 <= lo <= hi -> hi <= len s -> len (slice s lo hi) = hi - lo.
Proof.
  intros Hlo Hhi. unfold slice, len in *.
  rewrite length_firstn, length_skipn. lia.
Qed.

Lemma slice_skipn {A : Type} (s : list A) (lo hi : Z) :
  0 <= lo <= hi ->
  slice s lo hi ++ skipn (Z.to_nat hi) s = skipn (Z.to_nat lo) s.
Proof.
  intros H. unfold slice.
  replace (Z.to_nat hi) with (Z.to_nat (hi - lo) + Z.to_nat lo)%nat by lia.
  rewrite <- skipn_skipn. apply firstn_skipn.
Qed.

Lemma framesFrom_nil (body : bytes) (start : Z) :
  framesFrom body start = [] <-> len body <= start.
Proof.
  rewrite framesFrom_unfold.
  destruct (Z.ltb_spec start (len body)); cbv zeta; split; intros H';
    try reflexivity; try lia; discriminate.
Qed.

Lemma framesFrom_props (body : bytes) (n : nat) :
  forall start : Z,
    (Z.to_nat (len body - start) <= n)%nat -> 0 <= start ->
    concat (map Data (framesFrom body start)) = skipn (Z.to_nat start) body
    /\ Forall (fun f => exists endStream data,
                 f = WriteData 1 endStream data /\ 0 < len data <= 65536)
              (framesFrom body start)
    /\ forall pre f post,
         framesFrom body start = pre ++ f :: post ->
         (StreamEnded f = true <-> post = []).
Proof.
  induction n as [|n IH]; intros start Hn H0.
  - assert (Hnil : framesFrom body start = [])
      by (apply framesFrom_nil; lia).
    rewrite Hnil. cbn [map concat]. split; [|split].
    + rewrite skipn_all2; [reflexivity | unfold len in *; lia].
    + constructor.
    + intros [|p0 pre0] f post Hsplit; discriminate Hsplit.
  - rewrite framesFrom_unfold.
    destruct (Z.ltb_spec start (len body)) as [Hlt|Hge].
    + cbv zeta. set (end' := Z.min (start + 65536) (len body)).
      assert (Hm : (Z.to_nat (len body - end') <= n)%nat) by lia.
      destruct (IH end' Hm ltac:(lia)) as (Hcat & Hall & Hlast).
      split; [|split].
      * cbn [map concat Data WriteData]. rewrite Hcat.
        apply slice_skipn. lia.
      * constructor; [|exact Hall].
        exists (end' =? len body), (slice body start end').
        split; [reflexivity|]. rewrite slice_length by lia. lia.
      * intros [|p pre] f post Hsplit; cbn [app] in Hsplit.
        -- injection Hsplit as <- <-.
           unfold StreamEnded, WriteData. cbn [frameHeader Flags].
           rewrite framesFrom_nil.
           destruct (Z.eqb_spec end' (len body)) as [->|Hne];
             (split; [intros Hf|intros Hp]); try lia; try reflexivity.
           discriminate Hf.
        -- injection Hsplit as _ Hrest. exact (Hlast pre f post Hrest).
    + split; [|split].
      * cbn [map concat]. rewrite skipn_all2;
          [reflexivity | unfold len in *; lia].
      * constructor.
      * intros [|p0 pre0] f post Hsplit; discriminate Hsplit.
Qed.

End BodyLoop.

(** ** The HTTP/2 decode loop *)

Section ReadLoop.
Import Http2.

Variables (D : Decoder) (readErr : error).

Lemma readLoop_done (incoming : list Frame) (response : HTTPMessage)
  (dec : dec_state D) (hasBody bodyRead headersDone : bool) :
  negb headersDone || (hasBody && negb bodyRead) = false ->
  readLoop D readErr incoming response dec hasBody bodyRead headersDone
  = (response, None).
Proof.
  intros Hcond. destruct incoming; cbn [readLoop]; rewrite Hcond; reflexivity.
Qed.

Lemma StreamEnded_WriteData (streamID : Z) (endStream : bool) (data : bytes) :
  StreamEnded (WriteData streamID endStream data) = endStream.
Proof. destruct endStream; reflexivity. Qed.

(** One DATA frame on stream 1, read after the header block is complete and
    before the end of the stream. *)
Lemma readLoop_data (endStream : bool) (data : bytes) (incoming : list Frame)
  (response : HTTPMessage) (dec : dec_state D) :
  readLoop D readErr (WriteData 1 endStream data :: incoming) response dec
           true false true
  = readLoop D readErr incoming
      {| Headers := Headers response; Body := Body response ++ data |}
      dec true endStream true.
Proof. destruct endStream; reflexivity. Qed.

Lemma readLoop_data_frames (rest : list Frame) (l : list Frame) :
  Forall (fun f => exists endStream data,
            f = WriteData 1 endStream data /\ 0 < len data <= 65536) l ->
  (forall pre f post,
     l = pre ++ f :: post -> (StreamEnded f = true <-> post = [])) ->
  l <> [] ->
  forall (response : HTTPMessage) (dec : dec_state D),
    readLoop D readErr (l ++ rest) response dec true false true
    = ({| Headers := Headers response;
          Body := Body response ++ concat (map Data l) |}, None).
Proof.
  induction l as [|f l IH]; intros Hall Hlast Hne response dec;
    [contradiction|].
  inversion Hall as [|? ? (endStream & data & -> & _) Hall']; subst.
  pose proof (Hlast [] _ l eq_refl) as Hf.
  rewrite StreamEnded_WriteData in Hf.
  cbn [app]. rewrite readLoop_data.
  destruct l as [|g l].
  - assert (endStream = true) as -> by (apply Hf; reflexivity).
    rewrite readLoop_done by reflexivity.
    cbn [map concat Data WriteData]. rewrite app_nil_r. reflexivity.
  - assert (endStream = false) as ->.
    { destruct endStream; [|reflexivity].
      destruct Hf as [Hf _]. discriminate (Hf eq_refl). }
    rewrite IH; [|exact Hall'| |discriminate].
    + cbn [Headers Body map concat Data WriteData].
      rewrite <- app_assoc. reflexivity.
    + intros pre f post Hsplit.
      apply (Hlast (WriteData 1 false data :: pre) f post).
      cbn [app]. rewrite Hsplit. reflexivity.
Qed.

(** DATA payloads are appended in the order of arrival, wherever the sender
    cut them. *)
Lemma readLoop_chunks (rest : list Frame) (chunks : list bytes) (last : bytes) :
  forall (response : HTTPMessage) (dec : dec_state D),
    readLoop D readErr
      (map (WriteData 1 false) chunks ++ WriteData 1 true last :: rest)
      response dec true false true
    = ({| Headers := Headers response;
          Body := Body response ++ concat chunks ++ last |}, None).
Proof.
  induction chunks as [|c chunks IH]; intros response dec; cbn [map app].
  - rewrite readLoop_data, readLoop_done by reflexivity. reflexivity.
  - rewrite readLoop_data, IH. cbn [Headers Body concat].
    rewrite <- !app_assoc. reflexivity.
Qed.

(** The HEADERS frame the encoder writes, read first. *)
Lemma readLoop_headers (block : bytes) (endStream : bool)
  (incoming : list Frame) (dec' : dec_state D) (emitted : list Header) :
  Write D (NewDecoder D) block = (dec', emitted, None) ->
  readLoop D readErr (WriteHeaders 1 block endStream true :: incoming)
           noMessage (NewDecoder D) false false false
  = readLoop D readErr incoming {| Headers := emitted; Body := [] |} dec'
             (negb endStream) false true.
Proof.
  intros HW. cbn [readLoop negb orb WriteHeaders frameHeader StreamID].
  change (negb (1 =? 1)) with false. cbv iota. rewrite HW.
  destruct endStream; reflexivity.
Qed.

Lemma readLoop_error (incoming : list Frame) :
  forall (response : HTTPMessage) (dec : dec_state D)
         (hasBody bodyRead headersDone : bool)
         (m : HTTPMessage) (err : error),
    readLoop D readErr incoming response dec hasBody bodyRead headersDone
    = (m, Some err) ->
    m = noMessage.
Proof.
  induction incoming as [|f incoming IH];
    intros response dec hasBody bodyRead headersDone m err;
    cbn [readLoop];
    destruct (negb headersDone || (hasBody && negb bodyRead));
    try (intros [= <- _]; reflexivity); try discriminate.
  destruct f as [fh data|fh frag|fh code|fh settings|fh last code debug
                |fh incr|fh frag|fh payload];
    cbn [frameHeader];
    try (intros [= <- _]; reflexivity);
    (destruct (negb (StreamID fh =? 1)); [apply IH|]);
    try apply IH;
    try (intros [= <- _]; reflexivity);
    (destruct (Write D dec frag) as [[dec' emitted] [werr|]];
     [intros [= <- _]; reflexivity | apply IH]).
Qed.

End ReadLoop.

(** C1. For every request, [prepareHTTP2Request] yields the client preface,
    then the image of a SETTINGS frame setting the initial window size to
    1073741823, of a WINDOW_UPDATE frame on stream 0 with increment
    1073676287, of one HEADERS frame on stream 1 carrying the literal header
    block, with END_HEADERS always and END_STREAM exactly when the body is
    empty, of the DATA frames of the body loop, all on stream 1, present
    exactly when the body is not empty and with END_STREAM on the last one
    only, and last of all the image of the SETTINGS acknowledgement. *)
Theorem prepareHTTP2Request_layout (wire : Http2.Frame -> bytes)
  (request : Http2.HTTPMessage) :
  let body := Http2.Body request in
  let headersFlags := if len body =? 0 then 0x5 else 0x4 in
  Http2.prepareHTTP2Request wire request
  = Http2.ClientPreface
    ++ wire (Http2.SettingsFrame
               (Http2.mkFrameHeader 0 0)
               [Http2.mkSetting Http2.SettingInitialWindowSize 1073741823])
    ++ wire (Http2.WindowUpdateFrame (Http2.mkFrameHeader 0 0) 1073676287)
    ++ wire (Http2.HeadersFrame
               (Http2.mkFrameHeader headersFlags 1)
               (fold_left Http2.hpackAppendHeader (Http2.Headers request) []))
    ++ flat_map wire (Http2.dataFrames body)
    ++ wire (Http2.SettingsFrame
               (Http2.mkFrameHeader Http2.FlagSettingsAck 0) [])
  /\ Http2.Has headersFlags Http2.FlagHeadersEndHeaders = true
  /\ (Http2.Has headersFlags Http2.FlagHeadersEndStream = true <-> body = [])
  /\ (Http2.dataFrames body = [] <-> body = [])
  /\ Forall (fun f => exists flags data,
               f = Http2.DataFrame (Http2.mkFrameHeader flags 1) data)
            (Http2.dataFrames body)
  /\ (forall pre f post,
        Http2.dataFrames body = pre ++ f :: post ->
        (Http2.StreamEnded f = true <-> post = [])).
Proof.
  intros body headersFlags.
  assert (Hempty : (len body =? 0) = true <-> body = []).
  { unfold len. destruct body; cbn; split; intros E;
      try reflexivity; try discriminate; lia. }
  destruct (framesFrom_props body (Z.to_nat (len body - 0)) 0
              (Nat.le_refl _) (Z.le_refl 0)) as (_ & Hall & Hlast).
  split; [|split; [|split; [|split; [|split]]]].
  - unfold Http2.prepareHTTP2Request. cbv zeta. fold body.
    destruct (writeBody_trace wire body (Z.to_nat (len body - 0)) 0
                (Http2.ClientPreface
                 ++ wire (Http2.WriteSettings
                            [Http2.mkSetting Http2.SettingInitialWindowSize
                                             (2 ^ 30 - 1)])
                 ++ wire (Http2.WriteWindowUpdate 0 (2 ^ 30 - 2 ^ 16 - 1))
                 ++ wire (Http2.WriteHeaders 1
                            (fold_left Http2.hpackAppendHeader
                                       (Http2.Headers request) [])
                            (len body =? 0) true))
                (Nat.le_refl _)) as [Hw _].
    rewrite <- !app_assoc in *. rewrite Hw.
    unfold Http2.dataFrames, headersFlags.
    rewrite <- !app_assoc.
    destruct (len body =? 0); reflexivity.
  - unfold headersFlags. destruct (len body =? 0); reflexivity.
  - rewrite <- Hempty. unfold headersFlags.
    destruct (len body =? 0); cbn; split; intros E;
      try reflexivity; discriminate E.
  - unfold Http2.dataFrames. rewrite framesFrom_nil.
    unfold len. destruct body; cbn; split; intros E;
      try reflexivity; try discriminate; lia.
  - unfold Http2.dataFrames. eapply Forall_impl; [|exact Hall].
    intros f (endStream & data & -> & _).
    eexists _, data. reflexivity.
  - exact Hlast.
Qed.

(** C3. The body loop cuts the body into DATA frames of at most 65536 bytes
    each whose payloads, put end to end, are the body; the decode loop
    appends the payloads of the DATA frames it reads in their order of
    arrival, wherever they were cut; so a decode loop that is fed the HEADERS
    and DATA frames written for a request returns the request's body. *)
Theorem body_chunking_roundtrip (D : Decoder) (readErr : error)
  (block body : bytes) (rest : list Http2.Frame)
  (dec' : dec_state D) (fields : list Header) :
  Write D (NewDecoder D) block = (dec', fields, None) ->
  Forall (fun f => len (Http2.Data f) <= 65536) (Http2.dataFrames body)
  /\ concat (map Http2.Data (Http2.dataFrames body)) = body
  /\ (forall (chunks : list bytes) (last : bytes)
             (response : Http2.HTTPMessage) (dec : dec_state D),
        Http2.readLoop D readErr
          (map (Http2.WriteData 1 false) chunks
           ++ Http2.WriteData 1 true last :: rest)
          response dec true false true
        = ({| Http2.Headers := Http2.Headers response;
              Http2.Body := Http2.Body response ++ concat chunks ++ last |},
           None))
  /\ Http2.readLoop D readErr
       (Http2.WriteHeaders 1 block (len body =? 0) true
        :: Http2.dataFrames body ++ rest)
       Http2.noMessage (NewDecoder D) false false false
     = ({| Http2.Headers := fields; Http2.Body := body |}, None).
Proof.
  intros HW.
  destruct (framesFrom_props body (Z.to_nat (len body - 0)) 0
              (Nat.le_refl _) (Z.le_refl 0)) as (Hcat & Hall & Hlast).
  cbn [Z.to_nat skipn] in Hcat.
  split; [|split; [|split]].
  - unfold Http2.dataFrames. eapply Forall_impl; [|exact Hall].
    intros f (endStream & data & -> & Hlen). cbn [Http2.Data Http2.WriteData].
    lia.
  - exact Hcat.
  - intros chunks last response dec. apply readLoop_chunks.
  - rewrite (readLoop_headers D readErr block _ _ dec' fields HW).
    destruct body as [|b body'] eqn:Ebody.
    + change (len (@nil byte) =? 0) with true. cbn [negb].
      apply readLoop_done. reflexivity.
    + assert (Hne : (len (b :: body') =? 0) = false)
        by (apply Z.eqb_neq; unfold len; cbn [length]; lia).
      rewrite Hne. cbn [negb]. unfold Http2.dataFrames in *.
      rewrite readLoop_data_frames; try assumption.
      * cbn [Http2.Headers Http2.Body app]. rewrite Hcat. reflexivity.
      * intros Hnil. apply framesFrom_nil in Hnil.
        unfold len in Hnil; cbn [length] in Hnil; lia.
Qed.

Lemma body_chunking_roundtrip_witness :
  let D := mkDecoder unit tt (fun st _ => (st, [], None)) in
  let body := repeat 7 200000 in
  Write D (NewDecoder D) [] = (tt, [], None)
  /\ Http2.readLoop D io_EOF
       (Http2.WriteHeaders 1 [] (len body =? 0) true
        :: Http2.dataFrames body ++ [])
       Http2.noMessage (NewDecoder D) false false false
     = ({| Http2.Headers := []; Http2.Body := body |}, None).
Proof.
  intros D body. split; [reflexivity|].
  apply (body_chunking_roundtrip D io_EOF [] body [] tt []).
  reflexivity.
Defined.

(** C4. While the decode loop is still reading: a GOAWAY frame, whatever its
    stream identifier and whether or not a HEADERS frame was seen, ends it
    with the error built from the frame's error code; any other frame whose
    stream identifier is not 1 leaves the response and the loop variables as
    they were; a RST_STREAM frame on stream 1 ends it with the error built
    from its error code. *)
Theorem readLoop_signals (D : Decoder) (readErr : error) (f : Http2.Frame)
  (incoming : list Http2.Frame) (response : Http2.HTTPMessage)
  (dec : dec_state D) (hasBody bodyRead headersDone : bool) :
  negb headersDone || (hasBody && negb bodyRead) = true ->
  (forall fh last code debug,
     f = Http2.GoAwayFrame fh last code debug ->
     Http2.readLoop D readErr (f :: incoming) response dec
                    hasBody bodyRead headersDone
     = (Http2.noMessage,
        Some (Errorf "received GOAWAY frame: error code %v" [code])))
  /\ ((forall fh last code debug,
         f <> Http2.GoAwayFrame fh last code debug) ->
      Http2.StreamID (Http2.frameHeader f) <> 1 ->
      Http2.readLoop D readErr (f :: incoming) response dec
                     hasBody bodyRead headersDone
      = Http2.readLoop D readErr incoming response dec
                       hasBody bodyRead headersDone)
  /\ (forall fh code,
        f = Http2.RSTStreamFrame fh code -> Http2.StreamID fh = 1 ->
        Http2.readLoop D readErr (f :: incoming) response dec
                       hasBody bodyRead headersDone
        = (Http2.noMessage,
           Some (Errorf "received RST_STREAM frame: error code %v" [code]))).
Proof.
  intros Hcond. split; [|split].
  - intros fh last code debug ->. cbn [Http2.readLoop].
    rewrite Hcond. reflexivity.
  - intros Hnot Hid. cbn [Http2.readLoop]. rewrite Hcond.
    assert (Hneq : negb (Http2.StreamID (Http2.frameHeader f) =? 1) = true).
    { destruct (Z.eqb_spec (Http2.StreamID (Http2.frameHeader f)) 1);
        [contradiction | reflexivity]. }
    destruct f; cbn [Http2.frameHeader] in *; rewrite ?Hneq;
      try reflexivity.
    exfalso. eapply Hnot. reflexivity.
  - intros fh code -> Hid. cbn [Http2.readLoop Http2.frameHeader].
    rewrite Hcond, Hid. reflexivity.
Qed.

Lemma readLoop_signals_witness :
  let D := mkDecoder unit tt (fun st _ => (st, [], None)) in
  negb false || (false && negb false) = true
  /\ Http2.readLoop D io_EOF
       [Http2.GoAwayFrame (Http2.mkFrameHeader 0 0) 0 7 []]
       Http2.noMessage tt false false false
     = (Http2.noMessage,
        Some (Errorf "received GOAWAY frame: error code %v" [7])).
Proof.
  intros D. split; [reflexivity|].
  refine (proj1 (readLoop_signals D io_EOF
                   (Http2.GoAwayFrame (Http2.mkFrameHeader 0 0) 0 7 [])
                   [] Http2.noMessage tt false false false eq_refl)
                _ _ _ _ eq_refl).
Defined.

(** ** The HTTP/3 decode loop *)

Section Receive.
Import Http3.

Variable D : Decoder.

Lemma receive_step (ctxDone : bool) (headers : list Header) (body : bytes)
  (decoder : dec_state D) (b : Reader) :
  receive D ctxDone headers body decoder b
  = match readFrame b with
    | Panics format arg => Panics format arg
    | Returns (Err err) =>
        if ctxDone then Returns (None, Some (Errorf "timeout" []))
        else
          match err with
          | io_EOF =>
              Returns (Some {| RespHeaders := headers; RespBody := body |},
                       None)
          | LibError (Some true) _ =>
              Returns (None, Some (Errorf "ConnDropError{err}" []))
          | _ => Returns (None, Some err)
          end
    | Returns (Ok (frame, b')) =>
        if Type' frame =? 0x0 then
          receive D ctxDone headers (body ++ Data frame) decoder b'
        else if Type' frame =? 0x1 then
          match Write D decoder (Data frame) with
          | (_, _, Some err) => Returns (None, Some err)
          | (decoder', emitted, None) =>
              receive D ctxDone (headers ++ emitted) body decoder' b'
          end
        else
          receive D ctxDone headers body decoder b'
    end.
Proof.
  rewrite receive_unfold_eq. unfold receive_unfold.
  destruct (inspect (readFrame b)) as [[[[frame b']|err]|format arg] Hread];
    unfold receive_unfold_clause_1; cbv beta iota;
    rewrite Hread; reflexivity.
Qed.

Lemma ReadFull_exact (data rest : bytes) (e : error) :
  ReadFull (len data) (mkReader (data ++ rest) e)
  = Ok (data, mkReader rest e).
Proof.
  unfold ReadFull. cbn [pending closing].
  assert (Hfits : (len data <=? len (data ++ rest)) = true).
  { apply Z.leb_le. unfold len. rewrite length_app. lia. }
  rewrite Hfits. unfold len. rewrite Nat2Z.id.
  rewrite firstn_app, Nat.sub_diag, firstn_all, firstn_O, app_nil_r.
  rewrite skipn_app, Nat.sub_diag, skipn_all, skipn_O. reflexivity.
Qed.

Lemma readFrame_encoded (t : Z) (data rest : bytes) (e : error) :
  0 <= t <= maxVarInt8 -> len data <= maxAlloc ->
  readFrame (mkReader (varint t ++ varint (len data) ++ data ++ rest) e)
  = Returns (Ok ({| Type' := t; Len := len data; Data := data |},
                 mkReader rest e)).
Proof.
  intros Ht Hlen. unfold readFrame.
  assert (H0 : 0 <= len data) by (unfold len; lia).
  assert (Hfit : len data <= maxVarInt8).
  { unfold maxAlloc in Hlen. unfold maxVarInt8.
    change (2 ^ 48) with 281474976710656 in Hlen. lia. }
  rewrite readVarInt_varint by exact Ht.
  rewrite readVarInt_varint by lia.
  destruct (Z.ltb_spec maxAlloc (len data)) as [Hbig|_]; [lia|].
  rewrite ReadFull_exact.
  unfold int. unfold maxVarInt8 in Ht.
  destruct (Z.ltb_spec t (2 ^ 63)); [reflexivity|].
  change (2 ^ 63) with 9223372036854775808 in *. lia.
Qed.

Lemma readFrame_drained (e : error) :
  readFrame (mkReader [] e) = Returns (Err e).
Proof. reflexivity. Qed.

Lemma receive_error (n : nat) :
  forall (ctxDone : bool) (headers : list Header) (body : bytes)
         (decoder : dec_state D) (b : Reader)
         (resp : option HttpResponse) (err : error),
    (length (pending b) <= n)%nat ->
    receive D ctxDone headers body decoder b = Returns (resp, Some err) ->
    resp = None.
Proof.
  induction n as [|n IH];
    intros ctxDone headers body decoder b resp err Hn; rewrite receive_step;
    destruct (readFrame b) as [[[frame b']|rerr]|format arg] eqn:Hread;
    try discriminate.
  - apply readFrame_consumes in Hread. lia.
  - destruct ctxDone; [intros [= <- _]; reflexivity|].
    destruct rerr as [| | | |[[|]|] ?]; intros [= <- ?]; try reflexivity;
      discriminate.
  - apply readFrame_consumes in Hread.
    destruct (Type' frame =? 0); [apply IH; lia|].
    destruct (Type' frame =? 1); [|apply IH; lia].
    destruct (Write D decoder (Data frame)) as [[decoder' emitted] [werr|]];
      [intros [= <- _]; reflexivity | apply IH; lia].
  - destruct ctxDone; [intros [= <- _]; reflexivity|].
    destruct rerr as [| | | |[[|]|] ?]; intros [= <- ?]; try reflexivity;
      discriminate.
Qed.

End Receive.

(** ** The literal header writer *)

Section PrefixedIntegers.
Import Http2 Rfc7541.

Lemma septet_bits (b : Z) :
  is_byte b ->
  Z.land b 127 = b mod 128
  /\ ((Z.land b 128 =? 128) = (128 <=? b))
  /\ Z.lor 0x80 (b mod 128) = 128 + b mod 128.
Proof.
  intros Hb.
  assert (H : ((Z.land b 127 =? b mod 128)
               && Bool.eqb (Z.land b 128 =? 128) (128 <=? b)
               && (Z.lor 0x80 (b mod 128) =? 128 + b mod 128))%bool = true).
  { revert b Hb.
    apply (all_below_sound 256
             (fun b => ((Z.land b 127 =? b mod 128)
                        && Bool.eqb (Z.land b 128 =? 128) (128 <=? b)
                        && (Z.lor 0x80 (b mod 128) =? 128 + b mod 128))%bool)).
    vm_compute. reflexivity. }
  apply andb_true_iff in H as [H12 H3].
  apply andb_true_iff in H12 as [H1 H2].
  repeat split.
  - apply Z.eqb_eq; assumption.
  - apply Bool.eqb_prop; assumption.
  - apply Z.eqb_eq; assumption.
Qed.

Lemma continuation_step (dst : bytes) (val : Z) :
  continuation dst val
  = if 128 <=? val then
      continuation (dst ++ [uint8 (Z.lor 0x80 (Z.land val 0x7f))])
                   (Z.shiftr val 7)
    else (dst, val).
Proof.
  rewrite continuation_equation_1.
  destruct (Z_ge_dec val 128); destruct (Z.leb_spec 128 val); try lia;
    [rewrite continuation_clause_1_equation_1
    |rewrite continuation_clause_1_equation_2]; reflexivity.
Qed.

Lemma septets_step (v : Z) :
  septets v = if v <? 128 then [v] else (128 + v mod 128) :: septets (v / 128).
Proof.
  rewrite septets_equation_1.
  destruct (Z_lt_dec v 128); destruct (Z.ltb_spec v 128); try lia;
    [rewrite septets_clause_1_equation_1
    |rewrite septets_clause_1_equation_2]; reflexivity.
Qed.

Lemma low_septet (val : Z) :
  0 <= val -> uint8 (Z.lor 0x80 (Z.land val 0x7f)) = 128 + val mod 128.
Proof.
  intros Hval. change 0x7f with (Z.ones 7). rewrite Z.land_ones by lia.
  change (2 ^ 7) with 128.
  destruct (septet_bits (val mod 128)) as (_ & _ & Hlor);
    [unfold is_byte; euclid|].
  rewrite Z.mod_mod in Hlor by lia. rewrite Hlor.
  unfold uint8. euclid.
Qed.

Lemma continuation_septets (val : Z) :
  0 <= val ->
  forall dst : bytes,
    (let '(dst', val') := continuation dst val in dst' ++ [uint8 val'])
    = dst ++ septets val.
Proof.
  intros Hval. generalize Hval. revert val Hval.
  apply (Z_lt_induction
           (fun val => 0 <= val -> forall dst : bytes,
                (let '(dst', val') := continuation dst val in
                 dst' ++ [uint8 val'])
                = dst ++ septets val)).
  intros val IH Hval dst.
  rewrite continuation_step, septets_step.
  destruct (Z.leb_spec 128 val); destruct (Z.ltb_spec val 128); try lia.
  - rewrite IH by (rewrite Z.shiftr_div_pow2 by lia; euclid).
    rewrite low_septet by lia. rewrite Z.shiftr_div_pow2 by lia.
    change (2 ^ 7) with 128. rewrite <- app_assoc. reflexivity.
  - unfold uint8. rewrite Z.mod_small by lia. reflexivity.
Qed.

Lemma hpackAppendVarInt_7 (dst : bytes) (val : Z) :
  0 <= val < 2 ^ 64 -> hpackAppendVarInt dst 7 val = dst ++ prefixInt7 val.
Proof.
  intros Hval. unfold hpackAppendVarInt, prefixInt7.
  change (uint64 (sub64 (shl64 1 7) 1)) with 127. cbv zeta.
  destruct (Z.ltb_spec val 127).
  - unfold uint8. rewrite Z.mod_small by lia. reflexivity.
  - change (uint8 127) with 127.
    assert (Hsub : sub64 val 127 = val - 127).
    { unfold sub64, uint64. apply Z.mod_small. lia. }
    rewrite Hsub.
    pose proof (continuation_septets (val - 127) ltac:(lia) (dst ++ [127]))
      as Hc.
    destruct (continuation (dst ++ [127]) (val - 127)) as [dst' val'].
    rewrite Hc, <- app_assoc. reflexivity.
Qed.

Lemma hpackAppendHeader_literal (dst : bytes) (h : Header) :
  len (Name h) < 2 ^ 63 -> len (Value h) < 2 ^ 63 ->
  hpackAppendHeader dst h = dst ++ literalField h.
Proof.
  intros Hn Hv. unfold hpackAppendHeader, literalField. cbv zeta.
  assert (H0n : 0 <= len (Name h)) by (unfold len; lia).
  assert (H0v : 0 <= len (Value h)) by (unfold len; lia).
  change (2 ^ 63) with 9223372036854775808 in *.
  assert (Hun : uint64 (len (Name h)) = len (Name h))
    by (unfold uint64; apply Z.mod_small;
        change (2 ^ 64) with 18446744073709551616; lia).
  assert (Huv : uint64 (len (Value h)) = len (Value h))
    by (unfold uint64; apply Z.mod_small;
        change (2 ^ 64) with 18446744073709551616; lia).
  rewrite Hun, Huv.
  rewrite !hpackAppendVarInt_7
    by (change (2 ^ 64) with 18446744073709551616; lia).
  rewrite <- !app_assoc. reflexivity.
Qed.

Lemma hpackBuf_literal (headers : list Header) :
  Forall (fun h => len (Name h) < 2 ^ 63 /\ len (Value h) < 2 ^ 63) headers ->
  forall dst : bytes,
    fold_left hpackAppendHeader headers dst
    = dst ++ flat_map literalField headers.
Proof.
  induction 1 as [|h headers [Hn Hv] _ IH]; intros dst;
    cbn [fold_left flat_map].
  - rewrite app_nil_r. reflexivity.
  - rewrite IH, hpackAppendHeader_literal by assumption.
    rewrite <- app_assoc. reflexivity.
Qed.

Lemma decodeContinuation_septets (v : Z) :
  0 <= v ->
  forall (M I : Z) (rest : bytes),
    0 <= M ->
    decodeContinuation (septets v ++ rest) M I = Some (I + v * 2 ^ M, rest).
Proof.
  intros Hv. generalize Hv. revert v Hv.
  apply (Z_lt_induction
           (fun v => 0 <= v -> forall (M I : Z) (rest : bytes),
                0 <= M ->
                decodeContinuation (septets v ++ rest) M I
                = Some (I + v * 2 ^ M, rest))).
  intros v IH Hv M I rest HM.
  rewrite septets_step.
  destruct (Z.ltb_spec v 128) as [Hlt|Hge]; cbn [app decodeContinuation].
  - destruct (septet_bits v) as (Hland & Hflag & _); [unfold is_byte; lia|].
    rewrite Hland, Hflag. rewrite Z.mod_small by lia.
    destruct (Z.leb_spec 128 v); [lia | reflexivity].
  - destruct (septet_bits (128 + v mod 128)) as (Hland & Hflag & _);
      [unfold is_byte; euclid|].
    rewrite Hland, Hflag.
    destruct (Z.leb_spec 128 (128 + v mod 128)); [|euclid].
    rewrite IH by (try lia; euclid).
    do 2 f_equal. rewrite Z.pow_add_r by lia. change (2 ^ 7) with 128.
    replace ((128 + v mod 128) mod 128) with (v mod 128) by euclid.
    pose proof (Z.div_mod v 128 ltac:(lia)) as Hdm.
    rewrite Hdm at 3. ring.
Qed.

Lemma decodeInteger_prefixInt7 (v : Z) (rest : bytes) :
  0 <= v -> decodeInteger 7 (prefixInt7 v ++ rest) = Some (v, rest).
Proof.
  intros Hv. unfold prefixInt7.
  destruct (Z.ltb_spec v 127) as [Hlt|Hge]; cbn [app decodeInteger];
    change (2 ^ 7 - 1) with 127.
  - destruct (septet_bits v) as (Hland & _ & _); [unfold is_byte; lia|].
    rewrite Hland, Z.mod_small by lia.
    destruct (Z.ltb_spec v 127); [reflexivity | lia].
  - change (Z.land 127 127) with 127. change (127 <? 127) with false.
    cbv iota. rewrite decodeContinuation_septets by lia.
    do 2 f_equal. change (2 ^ 0) with 1. lia.
Qed.

Lemma prefixInt7_head (v : Z) (rest : bytes) :
  0 <= v ->
  exists b tail, prefixInt7 v ++ rest = b :: tail /\ 0 <= b < 128.
Proof.
  intros Hv. unfold prefixInt7. destruct (Z.ltb_spec v 127); cbn [app].
  - exists v, rest. split; [reflexivity | lia].
  - eexists 127, _. split; [reflexivity | lia].
Qed.

Lemma decodeString_literal (s rest : bytes) :
  decodeString (prefixInt7 (len s) ++ s ++ rest) = Some (s, rest).
Proof.
  assert (H0 : 0 <= len s) by (unfold len; lia).
  destruct (prefixInt7_head (len s) (s ++ rest) H0) as (b & tail & Hhead & Hb).
  unfold decodeString. rewrite Hhead.
  destruct (septet_bits b) as (_ & Hflag & _); [unfold is_byte; lia|].
  rewrite Hflag. destruct (Z.leb_spec 128 b); [lia|].
  rewrite <- Hhead, decodeInteger_prefixInt7 by exact H0.
  assert (Hfits : (len s <=? len (s ++ rest)) = true).
  { apply Z.leb_le. unfold len. rewrite length_app. lia. }
  rewrite Hfits. unfold len. rewrite Nat2Z.id.
  rewrite firstn_app, Nat.sub_diag, firstn_all, firstn_O, app_nil_r.
  rewrite skipn_app, Nat.sub_diag, skipn_all, skipn_O. reflexivity.
Qed.

Lemma decodeField_literal (h : Header) (rest : bytes) :
  decodeField (literalField h ++ rest) = Some (h, rest).
Proof.
  unfold literalField. cbn [app decodeField].
  change ((16 =? 64) || (16 =? 0) || (16 =? 16)) with true. cbv iota.
  rewrite <- !app_assoc, decodeString_literal, decodeString_literal.
  destruct h; reflexivity.
Qed.

Lemma decodeFields_literal (headers : list Header) :
  forall fuel : nat,
    (length headers <= fuel)%nat ->
    decodeFields fuel (flat_map literalField headers) = Some headers.
Proof.
  induction headers as [|h headers IH]; intros fuel Hfuel.
  - destruct fuel; reflexivity.
  - destruct fuel as [|fuel]; [cbn in Hfuel; lia|].
    cbn [flat_map].
    assert (Hcons : exists b tail,
               literalField h ++ flat_map literalField headers = b :: tail)
      by (unfold literalField; cbn [app]; eauto).
    destruct Hcons as (b & tail & Hcons).
    assert (Hstep : decodeFields (S fuel) (b :: tail)
                    = match decodeField (b :: tail) with
                      | None => None
                      | Some (h, rest) =>
                          match decodeFields fuel rest with
                          | None => None
                          | Some hs => Some (h :: hs)
                          end
                      end) by reflexivity.
    rewrite Hcons, Hstep, <- Hcons, decodeField_literal.
    rewrite IH by (cbn in Hfuel; lia). reflexivity.
Qed.

Lemma literal_block_length (headers : list Header) :
  (length headers <= length (flat_map literalField headers))%nat.
Proof.
  induction headers as [|h headers IH]; cbn [flat_map length]; [lia|].
  rewrite length_app. unfold literalField at 1. cbn [length]. lia.
Qed.

Lemma decodeBlock_literal (headers : list Header) :
  decodeBlock (flat_map literalField headers) = Some headers.
Proof.
  unfold decodeBlock. apply decodeFields_literal, literal_block_length.
Qed.

End PrefixedIntegers.

(** C6. For every sequence of header fields that Go can hold, with empty or
    long names and values alike, the header block written by
    [hpackAppendHeader] is, field after field in the given order, the byte
    0x10, the length of the name as a 7-bit-prefixed integer, the name, the
    length of the value likewise, and the value; such an integer is the value
    itself below 127 and otherwise the byte 127 followed by the value minus
    127 in groups of seven bits with the high bit set on all but the last;
    and the decoding procedure of RFC 7541 gives back the same fields in the
    same order. *)
Theorem hpack_literal_roundtrip (headers : list Header) :
  Forall (fun h => len (Name h) < 2 ^ 63 /\ len (Value h) < 2 ^ 63) headers ->
  fold_left Http2.hpackAppendHeader headers []
  = flat_map (fun h => 0x10 :: Rfc7541.prefixInt7 (len (Name h)) ++ Name h
                            ++ Rfc7541.prefixInt7 (len (Value h)) ++ Value h)
             headers
  /\ (forall (dst : bytes) (val : Z),
        0 <= val < 2 ^ 64 ->
        Http2.hpackAppendVarInt dst 7 val
        = dst ++ (if val <? 127 then [val]
                  else 127 :: Rfc7541.septets (val - 127)))
  /\ (forall v : Z,
        0 <= v ->
        Rfc7541.septets v
        = if v <? 128 then [v]
          else (128 + v mod 128) :: Rfc7541.septets (v / 128))
  /\ Rfc7541.decodeBlock (fold_left Http2.hpackAppendHeader headers [])
     = Some headers.
Proof.
  intros Hgo. pose proof (hpackBuf_literal headers Hgo []) as Hbuf.
  cbn [app] in Hbuf. split; [|split; [|split]].
  - exact Hbuf.
  - intros dst val Hval. apply hpackAppendVarInt_7. exact Hval.
  - intros v _. apply septets_step.
  - rewrite Hbuf. apply decodeBlock_literal.
Qed.

Lemma hpack_literal_roundtrip_witness :
  Forall (fun h => len (Name h) < 2 ^ 63 /\ len (Value h) < 2 ^ 63)
         [mkHeader [] []; mkHeader [0x3a; 0x70] (repeat 0x61 300);
          mkHeader (repeat 0x78 127) [0x31]]
  /\ Rfc7541.decodeBlock
       (fold_left Http2.hpackAppendHeader
          [mkHeader [] []; mkHeader [0x3a; 0x70] (repeat 0x61 300);
           mkHeader (repeat 0x78 127) [0x31]] [])
     = Some [mkHeader [] []; mkHeader [0x3a; 0x70] (repeat 0x61 300);
             mkHeader (repeat 0x78 127) [0x31]].
Proof.
  assert (Hgo : Forall (fun h => len (Name h) < 2 ^ 63
                                 /\ len (Value h) < 2 ^ 63)
                  [mkHeader [] []; mkHeader [0x3a; 0x70] (repeat 0x61 300);
                   mkHeader (repeat 0x78 127) [0x31]]).
  { repeat constructor; vm_compute; reflexivity. }
  split; [exact Hgo|].
  apply (hpack_literal_roundtrip _ Hgo).
Defined.

(** ** HTTP/3 requests and responses *)

Section Http3Frames.
Import Http3.

Lemma encodeBody_frames (body : bytes) :
  len body <= maxVarInt8 ->
  encodeBody body
  = Returns (if len body =? 0 then []
             else [varint 0x0 ++ varint (len body) ++ body]).
Proof.
  intros Hlen. unfold encodeBody.
  destruct (len body =? 0); [reflexivity|].
  assert (H0 : 0 <= len body) by (unfold len; lia).
  assert (Hu : uint64 (len body) = len body).
  { unfold uint64. apply Z.mod_small. unfold maxVarInt8 in Hlen.
    change (2 ^ 64) with 18446744073709551616. lia. }
  rewrite Hu. rewrite (writeVarInt_appends [] 0) by (unfold maxVarInt8; lia).
  cbn [and_then app]. rewrite writeVarInt_appends by lia.
  cbn [and_then]. rewrite <- app_assoc. reflexivity.
Qed.

Lemma encodeHeaders_frame (E : Encoder) (headers : list Header) :
  len (writeFields E headers) <= maxVarInt8 ->
  encodeHeaders E headers
  = Returns (varint 0x1 ++ varint (len (writeFields E headers))
             ++ writeFields E headers).
Proof.
  intros Hlen. unfold encodeHeaders. cbv zeta.
  assert (H0 : 0 <= len (writeFields E headers)) by (unfold len; lia).
  assert (Hu : uint64 (len (writeFields E headers))
               = len (writeFields E headers)).
  { unfold uint64. apply Z.mod_small. unfold maxVarInt8 in Hlen.
    change (2 ^ 64) with 18446744073709551616. lia. }
  rewrite Hu. rewrite (writeVarInt_appends [] 1) by (unfold maxVarInt8; lia).
  cbn [and_then app]. rewrite writeVarInt_appends by lia.
  cbn [and_then]. rewrite <- app_assoc. reflexivity.
Qed.

End Http3Frames.

(** C5. For every request whose header block and body have lengths that fit
    a variable-length integer, [prepareHTTP3Request] yields a HEADERS frame,
    made of the varint 1, the varint length of the compressed block and the
    block, followed by one DATA frame, made of the varint 0, the varint
    length of the body and the body, exactly when the body is not empty; and
    when both lengths are lengths the runtime allocates, as the length of
    every slice is, the decode loop run on these bytes with a decompressor
    that inverts the compressor on the block returns the fields of the
    request in their order and its body. *)
Theorem http3_roundtrip (D : Decoder) (E : Encoder)
  (request : Http3.HttpRequest) (dec' : dec_state D) :
  let block := Http3.writeFields E (Http3.Headers request) in
  let body := Http3.Body request in
  let frames :=
    (Http3.varint 0x1 ++ Http3.varint (len block) ++ block)
    :: (if len body =? 0 then []
        else [Http3.varint 0x0 ++ Http3.varint (len body) ++ body]) in
  len block <= Http3.maxVarInt8 ->
  len body <= Http3.maxVarInt8 ->
  Write D (NewDecoder D) block = (dec', Http3.Headers request, None) ->
  Http3.prepareHTTP3Request E request = Returns frames
  /\ (len block <= Http3.maxAlloc -> len body <= Http3.maxAlloc ->
      Http3.receive D false [] [] (NewDecoder D)
        (mkReader (concat frames) io_EOF)
      = Returns (Some {| Http3.RespHeaders := Http3.Headers request;
                         Http3.RespBody := body |}, None)
      /\ Http3.SendHTTP3Request D E Http3.loopback request
         = Returns (Some {| Http3.RespHeaders := Http3.Headers request;
                            Http3.RespBody := body |}, None)).
Proof.
  intros block body frames Hblock Hbody HW.
  assert (Hprep : Http3.prepareHTTP3Request E request = Returns frames).
  { unfold Http3.prepareHTTP3Request.
    rewrite encodeHeaders_frame by exact Hblock. cbn [and_then].
    rewrite encodeBody_frames by exact Hbody. reflexivity. }
  split; [exact Hprep|]. intros Ablock Abody.
  assert (Hrecv : Http3.receive D false [] [] (NewDecoder D)
                    (mkReader (concat frames) io_EOF)
                  = Returns
                      (Some {| Http3.RespHeaders := Http3.Headers request;
                               Http3.RespBody := body |}, None)).
  { unfold frames. cbn [concat]. rewrite <- !app_assoc.
    rewrite receive_step.
    rewrite readFrame_encoded
      by (try exact Ablock; unfold Http3.maxVarInt8; lia).
    cbn [Http3.Type' Http3.Data]. change (1 =? 0) with false.
    change (1 =? 1) with true. cbv iota. rewrite HW. cbn [app].
    rewrite receive_step.
    destruct (len body =? 0) eqn:Hempty.
    - cbn [concat]. rewrite readFrame_drained.
      assert (body = []) as ->; [|reflexivity].
      apply Z.eqb_eq in Hempty. unfold len in Hempty.
      destruct body; [reflexivity | cbn [length] in Hempty; lia].
    - cbn [concat]. rewrite <- !app_assoc.
      rewrite readFrame_encoded
        by (try exact Abody; unfold Http3.maxVarInt8; lia).
      cbn [Http3.Type' Http3.Data]. change (0 =? 0) with true. cbv iota.
      rewrite receive_step, readFrame_drained. reflexivity. }
  split; [exact Hrecv|].
  unfold Http3.SendHTTP3Request, Http3.loopback, Http3.setupSession.
  cbn [Http3.LookUp Http3.Atoi Http3.ListenPacket Http3.DialEarlyContext
       Http3.OpenUniStream Http3.ControlWrite Http3.OpenStream Http3.Close
       Http3.peer Http3.ctxDone].
  rewrite Hprep. cbn [and_then]. exact Hrecv.
Qed.

Lemma http3_roundtrip_witness :
  len (Http3.writeFields literalEncoder (Http3.Headers sampleRequest))
  <= Http3.maxVarInt8
  /\ len (Http3.Body sampleRequest) <= Http3.maxVarInt8
  /\ len (Http3.writeFields literalEncoder (Http3.Headers sampleRequest))
     <= Http3.maxAlloc
  /\ len (Http3.Body sampleRequest) <= Http3.maxAlloc
  /\ Http3.SendHTTP3Request Rfc7541.decoder literalEncoder Http3.loopback
       sampleRequest
     = Returns (Some {| Http3.RespHeaders := Http3.Headers sampleRequest;
                        Http3.RespBody := Http3.Body sampleRequest |}, None).
Proof.
  assert (H1 : len (Http3.writeFields literalEncoder
                      (Http3.Headers sampleRequest)) <= Http3.maxVarInt8)
    by (vm_compute; discriminate).
  assert (H2 : len (Http3.Body sampleRequest) <= Http3.maxVarInt8)
    by (vm_compute; discriminate).
  assert (A1 : len (Http3.writeFields literalEncoder
                      (Http3.Headers sampleRequest)) <= Http3.maxAlloc)
    by (vm_compute; discriminate).
  assert (A2 : len (Http3.Body sampleRequest) <= Http3.maxAlloc)
    by (vm_compute; discriminate).
  split; [exact H1|]. split; [exact H2|].
  split; [exact A1|]. split; [exact A2|].
  assert (HW : Write Rfc7541.decoder (NewDecoder Rfc7541.decoder)
                 (Http3.writeFields literalEncoder
                    (Http3.Headers sampleRequest))
               = (tt, Http3.Headers sampleRequest, None))
    by (vm_compute; reflexivity).
  exact (proj2 (proj2 (http3_roundtrip Rfc7541.decoder literalEncoder
                         sampleRequest tt H1 H2 HW) A1 A2)).
Defined.

(** C7. When reading a frame fails and the deadline has expired, the decode
    loop returns the timeout error and no response, whatever the read error
    was; when it fails with the end of the stream and the deadline has not
    expired, the loop ends with the response gathered so far and no error;
    when it fails with an error that reports itself as an application error,
    the loop returns the connection-drop error, which differs from the
    timeout error.  A stream that brings no data before the deadline gives
    the timeout error, not an empty response. *)
Theorem receive_read_failure (D : Decoder) (headers : list Header)
  (body : bytes) (decoder : dec_state D) (b : Reader) (err : error) :
  Http3.readFrame b = Returns (Err err) ->
  Http3.receive D true headers body decoder b
  = Returns (None, Some (Errorf "timeout" []))
  /\ (err = io_EOF ->
      Http3.receive D false headers body decoder b
      = Returns (Some {| Http3.RespHeaders := headers;
                         Http3.RespBody := body |}, None))
  /\ (forall id,
        err = LibError (Some true) id ->
        Http3.receive D false headers body decoder b
        = Returns (None, Some (Errorf "ConnDropError{err}" [])))
  /\ Errorf "timeout" [] <> Errorf "ConnDropError{err}" []
  /\ Errorf "timeout" [] <> io_EOF
  /\ (forall e : error,
        Http3.receive D true [] [] (NewDecoder D) (mkReader [] e)
        = Returns (None, Some (Errorf "timeout" []))).
Proof.
  intros Hread. split; [|split; [|split; [|split; [|split]]]].
  - rewrite receive_step, Hread. reflexivity.
  - intros ->. rewrite receive_step, Hread. reflexivity.
  - intros id ->. rewrite receive_step, Hread. reflexivity.
  - discriminate.
  - discriminate.
  - intros e. rewrite receive_step, readFrame_drained. reflexivity.
Qed.

Lemma receive_read_failure_witness :
  Http3.readFrame (mkReader [0x01; 0x05; 0x00] io_EOF)
  = Returns (Err io_ErrUnexpectedEOF)
  /\ Http3.receive Rfc7541.decoder true [] [] tt
       (mkReader [0x01; 0x05; 0x00] io_EOF)
     = Returns (None, Some (Errorf "timeout" [])).
Proof.
  split; [reflexivity|].
  apply (receive_read_failure Rfc7541.decoder [] [] tt
           (mkReader [0x01; 0x05; 0x00] io_EOF) io_ErrUnexpectedEOF).
  reflexivity.
Defined.


(** ** Worked examples *)

(** The sample encodings of RFC 9000, Appendix A.1. *)
Example readVarInt_rfc9000 :
  map (fun bs => Http3.readVarInt (mkReader bs io_EOF))
      [[0xc2; 0x19; 0x7c; 0x5e; 0xff; 0x14; 0xe8; 0x8c];
       [0x9d; 0x7f; 0x3e; 0x7d]; [0x7b; 0xbd]; [0x25]; [0x40; 0x25]]
  = map (fun v => Ok (v, mkReader [] io_EOF))
        [151288809941952652; 494878333; 15293; 37; 37].
Proof. vm_compute. reflexivity. Qed.

Example writeVarInt_rfc9000 :
  map Http3.varint [151288809941952652; 494878333; 15293; 37]
  = [[0xc2; 0x19; 0x7c; 0x5e; 0xff; 0x14; 0xe8; 0x8c];
     [0x9d; 0x7f; 0x3e; 0x7d]; [0x7b; 0xbd]; [0x25]].
Proof. vm_compute. reflexivity. Qed.

(** A stream that ends inside a variable-length integer reports the error
    of the stream. *)
Example readVarInt_truncated :
  Http3.readVarInt (mkReader [0x9d; 0x7f] io_EOF) = Err io_EOF.
Proof. reflexivity. Qed.

(** The sample encodings of RFC 7541, Appendix C.1: 10 and 1337 with a
    5-bit prefix, 42 with an 8-bit prefix. *)
Example hpackAppendVarInt_rfc7541 :
  Http2.hpackAppendVarInt [] 5 10 = [10]
  /\ Http2.hpackAppendVarInt [] 5 1337 = [31; 154; 10]
  /\ Http2.hpackAppendVarInt [] 8 42 = [42].
Proof. repeat split; vm_compute; reflexivity. Qed.

Example hpackAppendVarInt_127 :
  Http2.hpackAppendVarInt [] 7 126 = [126]
  /\ Http2.hpackAppendVarInt [] 7 127 = [127; 0]
  /\ Http2.hpackAppendVarInt [] 7 300 = [127; 173; 1].
Proof. repeat split; vm_compute; reflexivity. Qed.

(** A body of 200000 bytes leaves in three full DATA frames and one of 3392
    bytes, the last one alone ending the stream. *)
Example dataFrames_200000 :
  map (fun f => (len (Http2.Data f), Http2.StreamEnded f))
      (Http2.dataFrames (repeat 0 200000))
  = [(65536, false); (65536, false); (65536, false); (3392, true)].
Proof. vm_compute. reflexivity. Qed.

(** A body of exactly two full chunks: the second one ends the stream. *)
Example dataFrames_131072 :
  map (fun f => (len (Http2.Data f), Http2.StreamEnded f))
      (Http2.dataFrames (repeat 0 131072))
  = [(65536, false); (65536, true)].
Proof. vm_compute. reflexivity. Qed.

(** A peer whose first frame is GOAWAY with code 7. *)
Example SendHTTP2Request_goaway :
  Http2.SendHTTP2Request Rfc7541.decoder (fun _ => [])
    {| Http2.LookUp := None; Http2.DialTimeout := None;
       Http2.OpenFile := None; Http2.ConnWrite := None;
       Http2.peer := fun _ =>
         {| Http2.incoming :=
              [Http2.GoAwayFrame
                 {| Http2.Flags := 0; Http2.StreamID := 0 |} 0 7 []];
            Http2.readErr := io_EOF |} |}
    "" Http2.noMessage
  = (Http2.noMessage,
     Some (Errorf "received GOAWAY frame: error code %v" [7])).
Proof. reflexivity. Qed.

(** An HTTP/3 stream that ends inside the length of a frame ends the loop
    as a clean end of stream does. *)
Example receive_truncated_header :
  Http3.receive Rfc7541.decoder false [] [] tt
    (mkReader [0x00; 0x02; 0x61; 0x62; 0x00] io_EOF)
  = Returns
      (Some {| Http3.RespHeaders := []; Http3.RespBody := [0x61; 0x62] |},
       None).
Proof. vm_compute. reflexivity. Qed.

(** A frame that announces 4611686018427387903 bytes: [make] panics before
    the payload is read. *)
Example receive_oversized_length :
  Http3.receive Rfc7541.decoder false [] [] tt
    (mkReader [0x00; 0xff; 0xff; 0xff; 0xff; 0xff; 0xff; 0xff; 0xff] io_EOF)
  = Panics "runtime error: makeslice: len out of range" 0.
Proof. vm_compute. reflexivity. Qed.

(** * Further properties of the code *)

(** ** The variable-length integer reader on arbitrary input *)

Section VarIntInput.
Import Http3.

Lemma byte_class_cases (b : Z) :
  is_byte b ->
  exists h, 0 <= h < 64
            /\ (b = h \/ b = h + 64 \/ b = h + 128 \/ b = h + 192).
Proof.
  unfold is_byte. intros Hb. exists (b mod 64). split; [euclid|].
  assert (b / 64 = 0 \/ b / 64 = 1 \/ b / 64 = 2 \/ b / 64 = 3) as Hc
    by euclid.
  destruct Hc as [Hc|[Hc|[Hc|Hc]]]; [left|right; left|do 2 right; left
                                    |do 3 right]; euclid.
Qed.

Lemma intLen_cases (b : Z) :
  is_byte b ->
  exists h, 0 <= h < 64
            /\ ((b = h /\ intLen b = 1) \/ (b = h + 64 /\ intLen b = 2)
                \/ (b = h + 128 /\ intLen b = 4)
                \/ (b = h + 192 /\ intLen b = 8)).
Proof.
  intros Hb. destruct (byte_class b Hb) as [Hc _].
  destruct (byte_class_cases b Hb) as (h & Hh & Hcase).
  exists h. split; [exact Hh|]. unfold intLen. rewrite Hc.
  destruct Hcase as [-> | [-> | [-> | ->]]];
    [left; replace (h / 64) with 0 by euclid
    |right; left; replace ((h + 64) / 64) with 1 by euclid
    |do 2 right; left; replace ((h + 128) / 64) with 2 by euclid
    |do 3 right; replace ((h + 192) / 64) with 3 by euclid];
    split; reflexivity.
Qed.

Lemma readVarInt_short (b : byte) (tl : bytes) (e : error) :
  is_byte b -> len tl + 1 < intLen b ->
  readVarInt (mkReader (b :: tl) e) = Err e.
Proof.
  intros Hb Hshort. unfold intLen in Hshort.
  unfold readVarInt, bind, ReadByte, ret. cbn [pending closing].
  destruct (byte_class b Hb) as [Hc _]. rewrite Hc in *.
  unfold is_byte in Hb.
  assert (b / 64 = 0 \/ b / 64 = 1 \/ b / 64 = 2 \/ b / 64 = 3) as Hq
    by euclid.
  assert (0 <= len tl) as Hlen by (unfold len; lia).
  destruct Hq as [Hq|[Hq|[Hq|Hq]]]; rewrite Hq in *.
  - change (Z.shiftl 1 0) with 1 in Hshort. lia.
  - change (Z.shiftl 1 1) with 2 in *.
    change (2 =? 1) with false. cbv beta iota.
    destruct tl as [|b2 tl]; [reflexivity|].
    unfold len in Hshort; cbn [length] in Hshort; lia.
  - change (Z.shiftl 1 2) with 4 in *.
    change (4 =? 1) with false. change (4 =? 2) with false. cbv beta iota.
    do 3 (destruct tl as [|? tl];
          [reflexivity|cbn [pending closing]; cbv beta iota]).
    unfold len in Hshort; cbn [length] in Hshort; lia.
  - change (Z.shiftl 1 3) with 8 in *.
    change (8 =? 1) with false. change (8 =? 2) with false.
    change (8 =? 4) with false. cbv beta iota.
    do 7 (destruct tl as [|? tl];
          [reflexivity|cbn [pending closing]; cbv beta iota]).
    unfold len in Hshort; cbn [length] in Hshort; lia.
Qed.

Lemma class_len_le (v w : Z) :
  In w [1; 2; 4; 8] -> 0 <= v < 2 ^ (8 * w - 2) -> class_len v <= w.
Proof.
  intros Hw Hv. unfold class_len, maxVarInt1, maxVarInt2, maxVarInt4.
  cbn [In] in Hw.
  destruct Hw as [<-|[<-|[<-|[<-|[]]]]];
    [change (2 ^ (8 * 1 - 2)) with 64 in Hv
    |change (2 ^ (8 * 2 - 2)) with 16384 in Hv
    |change (2 ^ (8 * 4 - 2)) with 1073741824 in Hv
    |change (2 ^ (8 * 8 - 2)) with 4611686018427387904 in Hv];
    repeat match goal with
           | |- context [?a <=? ?b] => destruct (Z.leb_spec a b)
           end; lia.
Qed.

(** What a successful read took and gave. *)
Lemma readVarInt_shape (r r' : Reader) (v : Z) :
  Forall is_byte (pending r) ->
  readVarInt r = Ok (v, r') ->
  exists b tl used,
    pending r = b :: tl
    /\ pending r = used ++ pending r'
    /\ closing r' = closing r
    /\ len used = intLen b
    /\ In (intLen b) [1; 2; 4; 8]
    /\ 0 <= v < 2 ^ (8 * intLen b - 2).
Proof.
  destruct r as [p e]. cbn [pending closing]. intros Hbytes Hread.
  destruct p as [|b tl]; [discriminate Hread|].
  inversion Hbytes as [|? ? Hb Htl]; subst.
  exists b, tl.
  destruct (intLen_cases b Hb) as (h & Hh & Hcase).
  destruct Hcase as [[-> Hi] | [[-> Hi] | [[-> Hi] | [-> Hi]]]]; rewrite Hi.
  - rewrite readVarInt_1 in Hread by exact Hh.
    injection Hread as <- <-. exists [h]. cbn [pending closing app In].
    change (2 ^ (8 * 1 - 2)) with 64. repeat split; auto; lia.
  - destruct tl as [|b2 tl];
      [rewrite readVarInt_short in Hread
         by (try exact Hb; rewrite Hi; cbn; lia); discriminate|].
    inversion Htl as [|? ? H2 Htl2]; subst.
    rewrite readVarInt_2 in Hread by assumption.
    injection Hread as <- <-. exists [h + 64; b2].
    cbn [pending closing app In].
    change (2 ^ (8 * 2 - 2)) with 16384. unfold is_byte in *.
    repeat split; auto; lia.
  - destruct tl as [|b2 tl];
      [rewrite readVarInt_short in Hread
         by (try exact Hb; rewrite Hi; cbn; lia); discriminate|].
    destruct tl as [|b3 tl];
      [rewrite readVarInt_short in Hread
         by (try exact Hb; rewrite Hi; cbn; lia); discriminate|].
    destruct tl as [|b4 tl];
      [rewrite readVarInt_short in Hread
         by (try exact Hb; rewrite Hi; cbn; lia); discriminate|].
    repeat match goal with
           | H : Forall is_byte (_ :: _) |- _ =>
               inversion H; subst; clear H
           end.
    rewrite readVarInt_4 in Hread by assumption.
    injection Hread as <- <-. exists [h + 128; b2; b3; b4].
    cbn [pending closing app In].
    change (2 ^ (8 * 4 - 2)) with 1073741824. unfold is_byte in *.
    repeat split; auto; lia.
  - destruct tl as [|b2 tl];
      [rewrite readVarInt_short in Hread
         by (try exact Hb; rewrite Hi; cbn; lia); discriminate|].
    destruct tl as [|b3 tl];
      [rewrite readVarInt_short in Hread
         by (try exact Hb; rewrite Hi; cbn; lia); discriminate|].
    destruct tl as [|b4 tl];
      [rewrite readVarInt_short in Hread
         by (try exact Hb; rewrite Hi; cbn; lia); discriminate|].
    destruct tl as [|b5 tl];
      [rewrite readVarInt_short in Hread
         by (try exact Hb; rewrite Hi; cbn; lia); discriminate|].
    destruct tl as [|b6 tl];
      [rewrite readVarInt_short in Hread
         by (try exact Hb; rewrite Hi; cbn; lia); discriminate|].
    destruct tl as [|b7 tl];
      [rewrite readVarInt_short in Hread
         by (try exact Hb; rewrite Hi; cbn; lia); discriminate|].
    destruct tl as [|b8 tl];
      [rewrite readVarInt_short in Hread
         by (try exact Hb; rewrite Hi; cbn; lia); discriminate|].
    repeat match goal with
           | H : Forall is_byte (_ :: _) |- _ =>
               inversion H; subst; clear H
           end.
    rewrite readVarInt_8 in Hread by assumption.
    injection Hread as <- <-. exists [h + 192; b2; b3; b4; b5; b6; b7; b8].
    cbn [pending closing app In].
    change (2 ^ (8 * 8 - 2)) with 4611686018427387904. unfold is_byte in *.
    repeat split; auto; lia.
Qed.

End VarIntInput.

(** X1. [readVarInt] on a stream that ends before the number of bytes its
    first byte announces, or before the first byte, returns the error of the
    stream, which is [io.EOF] after a clean close, and no value. *)
Theorem readVarInt_input_too_short (r : Reader) :
  Forall is_byte (pending r) ->
  len (pending r)
  < match pending r with [] => 1 | firstByte :: _ => intLen firstByte end ->
  Http3.readVarInt r = Err (closing r).
Proof.
  destruct r as [p e]. cbn [pending closing]. intros Hbytes Hshort.
  destruct p as [|b tl]; [reflexivity|].
  inversion Hbytes; subst.
  apply readVarInt_short; [assumption|].
  unfold len in *. cbn [length] in Hshort. lia.
Qed.

Lemma readVarInt_input_too_short_witness :
  Forall is_byte [0xc2; 0x19; 0x7c]
  /\ Http3.readVarInt (mkReader [0xc2; 0x19; 0x7c] (LibError None 3))
     = Err (LibError None 3).
Proof.
  assert (Hb : Forall is_byte [0xc2; 0x19; 0x7c])
    by (repeat constructor; unfold is_byte; lia).
  split; [exact Hb|].
  apply (readVarInt_input_too_short
           (mkReader [0xc2; 0x19; 0x7c] (LibError None 3)) Hb).
  vm_compute. reflexivity.
Defined.

(** X2. When [readVarInt] succeeds on a stream of bytes, it has taken
    exactly the 1, 2, 4 or 8 bytes that the first byte announces from the
    front of the stream, it leaves the rest and the stream's error as they
    were, and the value is at most 4611686018427387903. *)
Theorem readVarInt_consumes_announced (r r' : Reader) (v : Z) :
  Forall is_byte (pending r) ->
  Http3.readVarInt r = Ok (v, r') ->
  0 <= v <= Http3.maxVarInt8
  /\ closing r' = closing r
  /\ exists firstByte used,
       hd_error (pending r) = Some firstByte
       /\ pending r = used ++ pending r'
       /\ len used = intLen firstByte
       /\ In (len used) [1; 2; 4; 8].
Proof.
  intros Hbytes Hread.
  destruct (readVarInt_shape r r' v Hbytes Hread)
    as (b & tl & used & Hp & Hused & Hclose & Hlen & Hin & Hv).
  assert (2 ^ (8 * intLen b - 2) <= 2 ^ 62).
  { apply Z.pow_le_mono_r; [lia|].
    cbn [In] in Hin. destruct Hin as [<-|[<-|[<-|[<-|[]]]]]; lia. }
  change (2 ^ 62) with 4611686018427387904 in *.
  split; [unfold Http3.maxVarInt8; lia|]. split; [exact Hclose|].
  exists b, used. rewrite Hlen. rewrite Hp at 1. cbn [hd_error]. auto.
Qed.

Lemma readVarInt_consumes_announced_witness :
  Forall is_byte [0x80; 0x00; 0x00; 0x05; 0x2a]
  /\ Http3.readVarInt (mkReader [0x80; 0x00; 0x00; 0x05; 0x2a] io_EOF)
     = Ok (5, mkReader [0x2a] io_EOF)
  /\ 0 <= 5 <= Http3.maxVarInt8.
Proof.
  assert (Hb : Forall is_byte [0x80; 0x00; 0x00; 0x05; 0x2a])
    by (repeat constructor; unfold is_byte; lia).
  assert (Hr : Http3.readVarInt
                 (mkReader [0x80; 0x00; 0x00; 0x05; 0x2a] io_EOF)
               = Ok (5, mkReader [0x2a] io_EOF)) by reflexivity.
  split; [exact Hb|]. split; [exact Hr|].
  apply (readVarInt_consumes_announced
           (mkReader [0x80; 0x00; 0x00; 0x05; 0x2a] io_EOF)
           (mkReader [0x2a] io_EOF) 5 Hb Hr).
Defined.

(** X3. Writing a value that [readVarInt] has read never takes more bytes
    than were read, and reads back as the same value: the writer's form is
    the shortest one. *)
Theorem varint_reencode_not_longer (r r' : Reader) (v : Z) :
  Forall is_byte (pending r) ->
  Http3.readVarInt r = Ok (v, r') ->
  len (Http3.varint v) <= len (pending r) - len (pending r')
  /\ Http3.readVarInt (mkReader (Http3.varint v ++ pending r') (closing r'))
     = Ok (v, r').
Proof.
  intros Hbytes Hread.
  destruct (readVarInt_shape r r' v Hbytes Hread)
    as (b & tl & used & Hp & Hused & Hclose & Hlen & Hin & Hv).
  assert (2 ^ (8 * intLen b - 2) <= 2 ^ 62).
  { apply Z.pow_le_mono_r; [lia|].
    cbn [In] in Hin. destruct Hin as [<-|[<-|[<-|[<-|[]]]]]; lia. }
  change (2 ^ 62) with 4611686018427387904 in *.
  assert (Hmax : 0 <= v <= Http3.maxVarInt8)
    by (unfold Http3.maxVarInt8; lia).
  split.
  - rewrite varint_len by exact Hmax.
    pose proof (class_len_le v (intLen b) Hin Hv) as Hle.
    rewrite Hused. unfold len in *. rewrite length_app. lia.
  - rewrite readVarInt_varint by exact Hmax. destruct r'; reflexivity.
Qed.

Lemma varint_reencode_not_longer_witness :
  Forall is_byte [0x80; 0x00; 0x00; 0x05; 0x2a]
  /\ len (Http3.varint 5) <= 5 - 1.
Proof.
  assert (Hb : Forall is_byte [0x80; 0x00; 0x00; 0x05; 0x2a])
    by (repeat constructor; unfold is_byte; lia).
  split; [exact Hb|].
  apply (varint_reencode_not_longer
           (mkReader [0x80; 0x00; 0x00; 0x05; 0x2a] io_EOF)
           (mkReader [0x2a] io_EOF) 5 Hb eq_refl).
Defined.

(** X4. What [writeVarInt] writes is self-delimiting: two values of the
    62-bit range whose encodings, each followed by anything, give the same
    bytes are the same value followed by the same bytes. *)
Theorem varint_self_delimiting (a b : Z) (ra rb : bytes) :
  0 <= a <= Http3.maxVarInt8 -> 0 <= b <= Http3.maxVarInt8 ->
  Http3.varint a ++ ra = Http3.varint b ++ rb ->
  a = b /\ ra = rb.
Proof.
  intros Ha Hb Heq.
  pose proof (readVarInt_varint a ra io_EOF Ha) as Hra.
  rewrite Heq, readVarInt_varint in Hra by exact Hb.
  injection Hra as -> ->. split; reflexivity.
Qed.

Lemma varint_self_delimiting_witness :
  0 <= 64 <= Http3.maxVarInt8
  /\ Http3.varint 64 ++ [0x40; 0x40] = Http3.varint 64 ++ [0x40; 0x40]
  /\ 64 = 64.
Proof.
  assert (H : 0 <= 64 <= Http3.maxVarInt8) by (unfold Http3.maxVarInt8; lia).
  split; [exact H|]. split; [reflexivity|].
  apply (varint_self_delimiting 64 64 [0x40; 0x40] [0x40; 0x40] H H eq_refl).
Defined.

(** ** The HTTP/3 decode loop on whole and on cut streams *)

Section ReceiveStreams.
Import Http3.

Variable D : Decoder.

Lemma readFrame_frameBytes (frame : Z * bytes) (rest : bytes) (e : error) :
  frameFits frame ->
  readFrame (mkReader (frameBytes frame ++ rest) e)
  = Returns
      (Ok ({| Type' := fst frame; Len := len (snd frame);
              Data := snd frame |}, mkReader rest e)).
Proof.
  intros [Ht Hl]. unfold frameBytes. rewrite <- !app_assoc.
  apply readFrame_encoded; assumption.
Qed.

Lemma receive_frames_from (frames : list (Z * bytes)) :
  Forall frameFits frames ->
  forall (headers : list Header) (body : bytes) (decoder : dec_state D),
    receive D false headers body decoder
      (mkReader (flat_map frameBytes frames) io_EOF)
    = match feed D decoder (payloadsOf 0x1 frames) with
      | (fields, None) =>
          Returns
            (Some {| RespHeaders := headers ++ fields;
                     RespBody := body ++ concat (payloadsOf 0x0 frames) |},
             None)
      | (_, Some err) => Returns (None, Some err)
      end.
Proof.
  induction 1 as [|[t data] frames Hfit _ IH]; intros headers body decoder.
  - cbn [flat_map payloadsOf filter map feed concat].
    rewrite receive_step, readFrame_drained, !app_nil_r. reflexivity.
  - cbn [flat_map]. rewrite receive_step, readFrame_frameBytes by exact Hfit.
    cbn [fst snd Type' Data]. unfold payloadsOf in *. cbn [filter fst].
    destruct (Z.eqb_spec t 0) as [->|H0].
    + change (0 =? 1) with false. cbv iota. cbn [map snd concat].
      rewrite IH.
      destruct (feed D decoder (map snd (filter _ frames))) as [fields [err|]];
        [reflexivity|].
      rewrite <- app_assoc. reflexivity.
    + destruct (Z.eqb_spec t 1) as [->|H1].
      * cbn [map snd feed].
        destruct (Write D decoder data) as [[decoder' emitted] [werr|]];
          [reflexivity|].
        rewrite IH.
        destruct (feed D decoder' (map snd (filter _ frames)))
          as [fields [err|]]; [reflexivity|].
        rewrite <- app_assoc. reflexivity.
      * apply IH.
Qed.





End ReceiveStreams.

(** X5. A response stream made of whole frames, each with a payload of a
    length the runtime allocates, and closed cleanly before the deadline
    decodes to the fields the decompressor emits for the payloads
    of the HEADERS frames, fed to it in their order, after the fields
    already held, and to the payloads of the DATA frames put end to end
    after the body already held; frames of any other type add nothing, and
    how HEADERS and DATA frames are interleaved does not matter.  If the
    decompressor refuses a payload, its error is returned alone. *)
Theorem receive_whole_frames (D : Decoder) (frames : list (Z * bytes))
  (headers : list Header) (body : bytes) (decoder : dec_state D) :
  Forall frameFits frames ->
  Http3.receive D false headers body decoder
    (mkReader (flat_map frameBytes frames) io_EOF)
  = match feed D decoder (payloadsOf 0x1 frames) with
    | (fields, None) =>
        Returns
          (Some {| Http3.RespHeaders := headers ++ fields;
                   Http3.RespBody :=
                     body ++ concat (payloadsOf 0x0 frames) |},
           None)
    | (_, Some err) => Returns (None, Some err)
    end.
Proof.
  intros Hfit. apply receive_frames_from. exact Hfit.
Qed.

Lemma receive_whole_frames_witness :
  Forall frameFits
    [(0x0, [1; 2]); (0x21, [9; 9; 9]);
     (0x1, Rfc7541.literalField (mkHeader [0x61] [0x62])); (0x0, [3])]
  /\ Http3.receive Rfc7541.decoder false [] [] tt
       (mkReader
          (flat_map frameBytes
             [(0x0, [1; 2]); (0x21, [9; 9; 9]);
              (0x1, Rfc7541.literalField (mkHeader [0x61] [0x62]));
              (0x0, [3])])
          io_EOF)
     = Returns (Some {| Http3.RespHeaders := [mkHeader [0x61] [0x62]];
                        Http3.RespBody := [1; 2; 3] |}, None).
Proof.
  assert (Hfit : Forall frameFits
                   [(0x0, [1; 2]); (0x21, [9; 9; 9]);
                    (0x1, Rfc7541.literalField (mkHeader [0x61] [0x62]));
                    (0x0, [3])]).
  { repeat constructor; vm_compute; discriminate. }
  split; [exact Hfit|].
  rewrite (receive_whole_frames Rfc7541.decoder _ [] [] tt Hfit).
  vm_compute. reflexivity.
Defined.

(** X6. A whole frame whose type is neither 0 nor 1, with a payload of a
    length the runtime allocates, is skipped whatever it carries and
    wherever it stands: the loop goes on with the bytes after it and with
    the fields, the body and the decompressor it had. *)
Theorem receive_skips_unknown_type (D : Decoder) (ctxDone : bool)
  (frame : Z * bytes) (rest : bytes) (e : error)
  (headers : list Header) (body : bytes) (decoder : dec_state D) :
  frameFits frame -> fst frame <> 0x0 -> fst frame <> 0x1 ->
  Http3.receive D ctxDone headers body decoder
    (mkReader (frameBytes frame ++ rest) e)
  = Http3.receive D ctxDone headers body decoder (mkReader rest e).
Proof.
  intros Hfit H0 H1. rewrite receive_step.
  rewrite readFrame_frameBytes by exact Hfit. cbn [Http3.Type'].
  destruct (Z.eqb_spec (fst frame) 0); [contradiction|].
  destruct (Z.eqb_spec (fst frame) 1); [contradiction|]. reflexivity.
Qed.

Lemma receive_skips_unknown_type_witness :
  frameFits (0x7, [0xde; 0xad])
  /\ Http3.receive Rfc7541.decoder false [] [] tt
       (mkReader (frameBytes (0x7, [0xde; 0xad]) ++ [0x00; 0x01; 0x2a])
                 io_EOF)
     = Returns
         (Some {| Http3.RespHeaders := []; Http3.RespBody := [0x2a] |},
          None).
Proof.
  assert (Hfit : frameFits (0x7, [0xde; 0xad]))
    by (repeat split; vm_compute; discriminate).
  split; [exact Hfit|].
  rewrite (receive_skips_unknown_type Rfc7541.decoder false
             (0x7, [0xde; 0xad]) [0x00; 0x01; 0x2a] io_EOF [] [] tt Hfit);
    [vm_compute; reflexivity | discriminate | discriminate].
Defined.




(** ** The prefixed-integer writer for every prefix length *)

Section AnyPrefix.
Import Http2 Rfc7541.

Lemma prefix_mask (n : Z) :
  0 <= n <= 8 ->
  uint64 (sub64 (shl64 1 n) 1) = 2 ^ n - 1 /\ 0 <= 2 ^ n - 1 <= 255.
Proof.
  intros Hn.
  assert (n = 0 \/ n = 1 \/ n = 2 \/ n = 3 \/ n = 4 \/ n = 5 \/ n = 6
          \/ n = 7 \/ n = 8) as Hcases by lia.
  repeat (destruct Hcases as [->|Hcases]); try subst n;
    (split; [vm_compute; reflexivity | vm_compute; split; discriminate]).
Qed.

Lemma continuation_appends (val : Z) :
  forall dst : bytes,
    continuation dst val
    = (dst ++ fst (continuation [] val), snd (continuation [] val)).
Proof.
  destruct (Z.lt_ge_cases val 128) as [Hsmall|Hbig].
  - intros dst. rewrite !(continuation_step _ val).
    destruct (Z.leb_spec 128 val); [lia|]. cbn [fst snd].
    rewrite app_nil_r. reflexivity.
  - assert (Hval : 0 <= val) by lia. clear Hbig. revert val Hval.
    apply (Z_lt_induction
             (fun val => forall dst : bytes,
                  continuation dst val
                  = (dst ++ fst (continuation [] val),
                     snd (continuation [] val)))).
    intros val IH dst.
    rewrite !(continuation_step _ val).
    destruct (Z.leb_spec 128 val) as [Hbig|Hsmall].
    + assert (Hlt : 0 <= Z.shiftr val 7 < val)
        by (rewrite Z.shiftr_div_pow2 by lia; euclid).
      rewrite (IH _ Hlt (dst ++ _)), (IH _ Hlt ([] ++ _)).
      cbn [fst snd app]. rewrite <- app_assoc. reflexivity.
    + cbn [fst snd]. rewrite app_nil_r. reflexivity.
Qed.

Lemma hpackAppendVarInt_appends (dst : bytes) (n val : Z) :
  hpackAppendVarInt dst n val = dst ++ hpackAppendVarInt [] n val.
Proof.
  unfold hpackAppendVarInt. cbv zeta.
  destruct (val <? uint64 (sub64 (shl64 1 n) 1)); [reflexivity|].
  rewrite (continuation_appends _ (dst ++ _)).
  rewrite (continuation_appends _ ([] ++ _)).
  cbn [app]. rewrite <- !app_assoc. reflexivity.
Qed.

Lemma hpackAppendHeader_appends (dst : bytes) (h : Header) :
  hpackAppendHeader dst h = dst ++ hpackAppendHeader [] h.
Proof.
  unfold hpackAppendHeader. cbv zeta.
  rewrite (hpackAppendVarInt_appends
             (hpackAppendVarInt (dst ++ [16]) 7 _ ++ Name h)).
  rewrite (hpackAppendVarInt_appends (dst ++ [16])).
  rewrite (hpackAppendVarInt_appends
             (hpackAppendVarInt ([] ++ [16]) 7 _ ++ Name h)).
  rewrite (hpackAppendVarInt_appends ([] ++ [16])).
  cbn [app]. rewrite <- !app_assoc. reflexivity.
Qed.

Lemma hpackBuf_appends (headers : list Header) :
  forall dst : bytes,
    fold_left hpackAppendHeader headers dst
    = dst ++ flat_map (hpackAppendHeader []) headers.
Proof.
  induction headers as [|h headers IH]; intros dst; cbn [fold_left flat_map].
  - rewrite app_nil_r. reflexivity.
  - rewrite IH, (hpackAppendHeader_appends dst), <- app_assoc. reflexivity.
Qed.

Lemma hpackAppendVarInt_form (n val : Z) :
  0 <= n <= 8 -> 0 <= val < 2 ^ 64 ->
  hpackAppendVarInt [] n val
  = if val <? 2 ^ n - 1 then [val]
    else (2 ^ n - 1) :: septets (val - (2 ^ n - 1)).
Proof.
  intros Hn Hval. destruct (prefix_mask n Hn) as [Hk Hk255].
  unfold hpackAppendVarInt. rewrite Hk. cbv zeta.
  change (2 ^ 64) with 18446744073709551616 in Hval.
  destruct (Z.ltb_spec val (2 ^ n - 1)).
  - unfold uint8. rewrite Z.mod_small by lia. reflexivity.
  - assert (Hsub : sub64 val (2 ^ n - 1) = val - (2 ^ n - 1)).
    { unfold sub64, uint64. apply Z.mod_small.
      change (2 ^ 64) with 18446744073709551616. lia. }
    rewrite Hsub.
    pose proof (continuation_septets (val - (2 ^ n - 1)) ltac:(lia)
                  ([] ++ [uint8 (2 ^ n - 1)])) as Hc.
    set (c := continuation _ _) in *. destruct c as [dst' val'].
    rewrite Hc. cbn [app]. unfold uint8. rewrite Z.mod_small by lia.
    reflexivity.
Qed.

Lemma septets_length (m : nat) :
  forall v : Z, 0 <= v < 128 ^ Z.of_nat (S m) ->
                (1 <= length (septets v) <= S m)%nat.
Proof.
  induction m as [|m IH]; intros v Hv; rewrite septets_step.
  - change (128 ^ Z.of_nat 1) with 128 in Hv.
    destruct (Z.ltb_spec v 128); [cbn [length]; lia | lia].
  - destruct (Z.ltb_spec v 128); [cbn [length]; lia|].
    cbn [length].
    assert (Hq : 0 <= v / 128 < 128 ^ Z.of_nat (S m)).
    { replace (Z.of_nat (S (S m))) with (Z.of_nat (S m) + 1) in Hv by lia.
      rewrite Z.pow_add_r in Hv by lia. change (128 ^ 1) with 128 in Hv.
      split; [apply Z.div_pos; lia|].
      apply Z.div_lt_upper_bound; lia. }
    specialize (IH _ Hq). lia.
Qed.

End AnyPrefix.

(** X9. For every prefix length from 1 to 8 bits and every [uint64],
    what [hpackAppendVarInt] appends is read back as the same value by the
    integer decoding of RFC 7541, Section 5.1, whatever follows it. *)
Theorem hpackAppendVarInt_decodes (n val : Z) (dst rest : bytes) :
  1 <= n <= 8 -> 0 <= val < 2 ^ 64 ->
  exists written,
    Http2.hpackAppendVarInt dst n val = dst ++ written
    /\ Rfc7541.decodeInteger n (written ++ rest) = Some (val, rest).
Proof.
  intros Hn Hval. exists (Http2.hpackAppendVarInt [] n val).
  split; [apply hpackAppendVarInt_appends|].
  rewrite hpackAppendVarInt_form by lia.
  destruct (prefix_mask n ltac:(lia)) as [_ Hk].
  assert (Hones : forall b, 0 <= b <= 2 ^ n - 1 ->
                            Z.land b (2 ^ n - 1) = b).
  { intros b Hb. replace (2 ^ n - 1) with (Z.ones n)
      by (rewrite Z.ones_equiv; lia).
    rewrite Z.land_ones by lia. apply Z.mod_small. lia. }
  destruct (Z.ltb_spec val (2 ^ n - 1)) as [Hlt|Hge];
    cbn [app Rfc7541.decodeInteger].
  - rewrite Hones by lia.
    destruct (Z.ltb_spec val (2 ^ n - 1)); [reflexivity | lia].
  - rewrite Hones by lia.
    destruct (Z.ltb_spec (2 ^ n - 1) (2 ^ n - 1)); [lia|].
    rewrite decodeContinuation_septets by lia.
    do 2 f_equal. change (2 ^ 0) with 1. lia.
Qed.

Lemma hpackAppendVarInt_decodes_witness :
  1 <= 5 <= 8 /\ 0 <= 1337 < 2 ^ 64
  /\ Http2.hpackAppendVarInt [0xff] 5 1337 = [0xff; 31; 154; 10]
  /\ exists written,
       Http2.hpackAppendVarInt [0xff] 5 1337 = [0xff] ++ written
       /\ Rfc7541.decodeInteger 5 (written ++ [0x2a]) = Some (1337, [0x2a]).
Proof.
  split; [lia|]. split; [lia|]. split; [vm_compute; reflexivity|].
  apply (hpackAppendVarInt_decodes 5 1337 [0xff] [0x2a]); lia.
Defined.

(** X10. For a prefix length of at most 8 bits, [hpackAppendVarInt] appends
    at least one and at most eleven bytes for a [uint64], and exactly one,
    the value itself, for a value below the prefix maximum. *)
Theorem hpackAppendVarInt_size (n val : Z) (dst : bytes) :
  0 <= n <= 8 -> 0 <= val < 2 ^ 64 ->
  exists written,
    Http2.hpackAppendVarInt dst n val = dst ++ written
    /\ 1 <= len written <= 11
    /\ (val < 2 ^ n - 1 -> written = [val]).
Proof.
  intros Hn Hval. exists (Http2.hpackAppendVarInt [] n val).
  split; [apply hpackAppendVarInt_appends|].
  rewrite hpackAppendVarInt_form by lia.
  destruct (prefix_mask n Hn) as [_ Hk].
  destruct (Z.ltb_spec val (2 ^ n - 1)) as [Hlt|Hge].
  - split; [unfold len; cbn [length]; lia|]. reflexivity.
  - split; [|lia].
    assert (Hv : 0 <= val - (2 ^ n - 1) < 128 ^ Z.of_nat 10).
    { change (128 ^ Z.of_nat 10) with 1180591620717411303424.
      change (2 ^ 64) with 18446744073709551616 in Hval. lia. }
    pose proof (septets_length 9 _ Hv) as Hl.
    unfold len. cbn [length]. lia.
Qed.

Lemma hpackAppendVarInt_size_witness :
  0 <= 7 <= 8 /\ 0 <= 300 < 2 ^ 64
  /\ exists written,
       Http2.hpackAppendVarInt [0x10] 7 300 = [0x10] ++ written
       /\ 1 <= len written <= 11.
Proof.
  split; [lia|]. split; [lia|].
  destruct (hpackAppendVarInt_size 7 300 [0x10])
    as (written & Hw & Hsize & _); [lia | lia |].
  exists written. split; [exact Hw | exact Hsize].
Defined.

(** X11. The header writer only appends: the block written for a list of
    fields after a buffer is that buffer followed by the blocks of the
    fields taken one by one in their order, so the block of two lists put
    together is the block of the first followed by the block of the second,
    whatever the fields are. *)
Theorem hpack_block_concatenates (dst : bytes) (first second : list Header) :
  fold_left Http2.hpackAppendHeader (first ++ second) dst
  = dst ++ fold_left Http2.hpackAppendHeader first []
        ++ fold_left Http2.hpackAppendHeader second []
  /\ fold_left Http2.hpackAppendHeader first dst
     = dst ++ flat_map (Http2.hpackAppendHeader []) first.
Proof.
  rewrite !hpackBuf_appends. cbn [app].
  rewrite flat_map_app. split; reflexivity.
Qed.

(** ** The sizes of the DATA frames *)

Section ChunkSizes.
Import Http2.

Lemma framesFrom_sizes (body : bytes) (n : nat) :
  forall start : Z,
    (Z.to_nat (len body - start) <= n)%nat -> 0 <= start <= len body ->
    len (framesFrom body start) = (len body - start + 65535) / 65536
    /\ forall pre f post,
         framesFrom body start = pre ++ f :: post ->
         len (Data f)
         = if len post =? 0
           then len body - start - 65536 * len pre
           else 65536.
Proof.
  induction n as [|n IH]; intros start Hn Hstart.
  - assert (start = len body) as -> by lia.
    assert (Hnil : framesFrom body (len body) = [])
      by (apply framesFrom_nil; lia).
    rewrite Hnil. split.
    + replace (len body - len body + 65535) with 65535 by lia. reflexivity.
    + intros [|p0 pre0] f post Hsplit; discriminate Hsplit.
  - rewrite framesFrom_unfold.
    destruct (Z.ltb_spec start (len body)) as [Hlt|Hge].
    + cbv zeta. set (end' := Z.min (start + 65536) (len body)).
      assert (Hm : (Z.to_nat (len body - end') <= n)%nat) by lia.
      destruct (IH end' Hm ltac:(lia)) as [Hcount Hsizes].
      split.
      * unfold len in *. cbn [length]. rewrite Nat2Z.inj_succ, Hcount.
        destruct (Z.le_gt_cases (start + 65536) (Z.of_nat (length body)));
          subst end'; [rewrite Z.min_l by lia|rewrite Z.min_r by lia];
          euclid.
      * intros [|p pre] f post Hsplit; cbn [app] in Hsplit.
        -- injection Hsplit as <- <-. cbn [Data WriteData].
           rewrite slice_length by lia.
           destruct (Z.eqb_spec (len (framesFrom body end')) 0) as [E|E].
           ++ rewrite Hcount in E. change (len (@nil Frame)) with 0.
              subst end'.
              destruct (Z.le_gt_cases (start + 65536) (len body));
                [rewrite Z.min_l in * by lia|rewrite Z.min_r in * by lia];
                euclid.
           ++ rewrite Hcount in E. subst end'.
              destruct (Z.le_gt_cases (start + 65536) (len body));
                [rewrite Z.min_l in * by lia|rewrite Z.min_r in * by lia];
                euclid.
        -- injection Hsplit as _ Hrest.
           rewrite (Hsizes pre f post Hrest).
           destruct (len post =? 0); [|reflexivity].
           assert (Hpre : len (p :: pre) = len pre + 1)
             by (unfold len; cbn [length]; lia).
           rewrite Hpre.
           assert (Hfull : end' = start + 65536).
           { subst end'.
             destruct (Z.le_gt_cases (start + 65536) (len body));
               [apply Z.min_l; lia|].
             rewrite Z.min_r in Hrest by lia.
             assert (Hnil : framesFrom body (len body) = [])
               by (apply framesFrom_nil; lia).
             rewrite Hnil in Hrest. destruct pre; discriminate Hrest. }
           lia.
    + assert (start = len body) as -> by lia. split.
      * replace (len body - len body + 65535) with 65535 by lia.
        reflexivity.
      * intros [|p0 pre0] f post Hsplit; discriminate Hsplit.
Qed.

End ChunkSizes.

(** X12. The body loop writes one DATA frame for every started 65536 bytes
    of the body: every frame but the last carries exactly 65536 bytes and
    the last carries the remainder, between 1 and 65536 bytes. *)
Theorem dataFrames_sizes (body : bytes) :
  len (Http2.dataFrames body) = (len body + 65535) / 65536
  /\ forall pre f post,
       Http2.dataFrames body = pre ++ f :: post ->
       len (Http2.Data f)
       = (if len post =? 0 then len body - 65536 * len pre else 65536)
       /\ 1 <= len (Http2.Data f) <= 65536.
Proof.
  assert (H0 : 0 <= len body) by (unfold len; lia).
  destruct (framesFrom_sizes body (Z.to_nat (len body - 0)) 0
              (Nat.le_refl _) ltac:(lia)) as [Hcount Hsizes].
  destruct (framesFrom_props body (Z.to_nat (len body - 0)) 0
              (Nat.le_refl _) (Z.le_refl 0)) as (_ & Hall & _).
  unfold Http2.dataFrames. split.
  - rewrite Hcount. f_equal. lia.
  - intros pre f post Hsplit. split.
    + rewrite (Hsizes pre f post Hsplit).
      destruct (len post =? 0); [lia | reflexivity].
    + rewrite Forall_forall in Hall.
      destruct (Hall f) as (endStream & data & -> & Hlen);
        [rewrite Hsplit; apply in_elt|].
      cbn [Http2.Data Http2.WriteData]. lia.
Qed.

(** ** The HTTP/2 decode loop on whole responses *)

Section ReadLoopResponses.
Import Http2.

Variables (D : Decoder) (readErr : error).

Lemma readLoop_passes_over (f : Frame) (incoming : list Frame)
  (response : HTTPMessage) (dec : dec_state D)
  (hasBody bodyRead headersDone : bool) :
  passedOver f = true ->
  readLoop D readErr (f :: incoming) response dec hasBody bodyRead headersDone
  = readLoop D readErr incoming response dec hasBody bodyRead headersDone.
Proof.
  intros Hf. cbn [readLoop].
  destruct (negb headersDone || (hasBody && negb bodyRead)) eqn:Hcond.
  - destruct f; cbn [passedOver frameHeader] in *; rewrite ?Hf;
      try reflexivity; discriminate Hf.
  - symmetry. apply readLoop_done. exact Hcond.
Qed.

Lemma readLoop_only_passed_over (incoming : list Frame) :
  Forall (fun f => passedOver f = true) incoming ->
  forall (response : HTTPMessage) (dec : dec_state D)
         (hasBody bodyRead headersDone : bool),
    negb headersDone || (hasBody && negb bodyRead) = true ->
    readLoop D readErr incoming response dec hasBody bodyRead headersDone
    = (noMessage, Some readErr).
Proof.
  induction 1 as [|f incoming Hf _ IH];
    intros response dec hasBody bodyRead headersDone Hcond.
  - cbn [readLoop]. rewrite Hcond. reflexivity.
  - rewrite readLoop_passes_over by exact Hf. apply IH. exact Hcond.
Qed.

Lemma feed_cons (dec : dec_state D) (fragment : bytes)
  (fragments : list bytes) :
  feed D dec (fragment :: fragments)
  = match Write D dec fragment with
    | (_, _, Some err) => ([], Some err)
    | (dec', emitted, None) =>
        let '(fields, err) := feed D dec' fragments in
        (emitted ++ fields, err)
    end.
Proof. reflexivity. Qed.

Lemma readLoop_continuations (tail : list Frame) (hasBody : bool)
  (K : HTTPMessage -> HTTPMessage * option error) :
  (forall (response : HTTPMessage) (dec : dec_state D),
     readLoop D readErr tail response dec hasBody false true = K response) ->
  forall (more : list bytes) (response : HTTPMessage) (dec : dec_state D),
    more <> [] ->
    readLoop D readErr (continuationFrames more ++ tail) response dec
             hasBody false false
    = match feed D dec more with
      | (fields, None) =>
          K {| Headers := Headers response ++ fields;
               Body := Body response |}
      | (_, Some err) => (noMessage, Some err)
      end.
Proof.
  intros HK. induction more as [|fragment more IH];
    intros response dec Hne; [contradiction|].
  destruct more as [|next more].
  - cbn [continuationFrames app readLoop negb orb frameHeader StreamID feed].
    change (negb (1 =? 1)) with false. cbv iota.
    destruct (Write D dec fragment) as [[dec' emitted] [werr|]];
      [reflexivity|].
    change (HeadersEnded (ContinuationFrame _ fragment)) with true.
    rewrite HK, app_nil_r. reflexivity.
  - change (continuationFrames (fragment :: next :: more))
      with (ContinuationFrame {| Flags := 0; StreamID := 1 |} fragment
            :: continuationFrames (next :: more)).
    cbn [app readLoop negb orb frameHeader StreamID].
    change (negb (1 =? 1)) with false. cbv iota.
    rewrite feed_cons.
    destruct (Write D dec fragment) as [[dec' emitted] [werr|]];
      [reflexivity|].
    change (HeadersEnded (ContinuationFrame _ fragment)) with false.
    rewrite IH by discriminate. cbn [Headers Body].
    destruct (feed D dec' (next :: more)) as [fields [err|]];
      [reflexivity|].
    rewrite <- app_assoc. reflexivity.
Qed.

Lemma readLoop_headers_frame (fragment : bytes) (endStream endHeaders : bool)
  (incoming : list Frame) (dec : dec_state D) :
  readLoop D readErr (WriteHeaders 1 fragment endStream endHeaders :: incoming)
           noMessage dec false false false
  = match Write D dec fragment with
    | (_, _, Some err) => (noMessage, Some err)
    | (dec', emitted, None) =>
        readLoop D readErr incoming {| Headers := emitted; Body := [] |} dec'
                 (negb endStream) false endHeaders
    end.
Proof.
  cbn [readLoop negb orb WriteHeaders frameHeader StreamID].
  change (negb (1 =? 1)) with false. cbv iota.
  destruct (Write D dec fragment) as [[dec' emitted] [werr|]];
    [reflexivity|].
  destruct endStream, endHeaders; reflexivity.
Qed.

Lemma readLoop_header_block (tail : list Frame) (endStream : bool)
  (K : HTTPMessage -> HTTPMessage * option error) :
  (forall (response : HTTPMessage) (dec : dec_state D),
     readLoop D readErr tail response dec (negb endStream) false true
     = K response) ->
  forall (first : bytes) (more : list bytes),
    readLoop D readErr (headerBlockFrames endStream first more ++ tail)
             noMessage (NewDecoder D) false false false
    = match feed D (NewDecoder D) (first :: more) with
      | (fields, None) => K {| Headers := fields; Body := [] |}
      | (_, Some err) => (noMessage, Some err)
      end.
Proof.
  intros HK first more. unfold headerBlockFrames. cbn [app].
  rewrite readLoop_headers_frame, feed_cons.
  destruct (Write D (NewDecoder D) first) as [[dec' emitted] [werr|]];
    [reflexivity|].
  destruct more as [|next more].
  - cbn [continuationFrames app feed]. rewrite HK, app_nil_r. reflexivity.
  - rewrite (readLoop_continuations tail (negb endStream) K HK)
      by discriminate.
    cbn [Headers Body app].
    destruct (feed D dec' (next :: more)) as [fields [err|]]; reflexivity.
Qed.

Lemma readLoop_success_extends (incoming : list Frame) :
  forall (response : HTTPMessage) (dec : dec_state D)
         (hasBody bodyRead headersDone : bool) (m : HTTPMessage),
    readLoop D readErr incoming response dec hasBody bodyRead headersDone
    = (m, None) ->
    forall (readErr' : error) (more : list Frame),
      readLoop D readErr' (incoming ++ more) response dec
               hasBody bodyRead headersDone
      = (m, None).
Proof.
  induction incoming as [|f incoming IH];
    intros response dec hasBody bodyRead headersDone m Hrun readErr' more;
    destruct (negb headersDone || (hasBody && negb bodyRead)) eqn:Hcond.
  - cbn [readLoop] in Hrun. rewrite Hcond in Hrun. discriminate Hrun.
  - rewrite readLoop_done in Hrun by exact Hcond.
    injection Hrun as <-.
    destruct more; cbn [app readLoop]; rewrite Hcond; reflexivity.
  - cbn [app readLoop] in *. rewrite Hcond in *.
    destruct f as [fh data|fh frag|fh code|fh settings|fh last code debug
                  |fh incr|fh frag|fh payload];
      cbn [frameHeader] in *;
      try discriminate Hrun;
      (destruct (negb (StreamID fh =? 1)); [apply IH; exact Hrun|]);
      try (apply IH; exact Hrun);
      try discriminate Hrun;
      (destruct (Write D dec frag) as [[dec' emitted] [werr|]];
       [discriminate Hrun | apply IH; exact Hrun]).
  - rewrite readLoop_done in Hrun by exact Hcond.
    injection Hrun as <-. cbn [app readLoop]. rewrite Hcond. reflexivity.
Qed.

End ReadLoopResponses.

(** X13. The HTTP/2 decode loop stops at the frame that completes the
    response: a run that succeeds on some frames gives the same message
    whatever frames follow them and whatever the connection would report
    afterwards; a GOAWAY or RST_STREAM sent after the end of the stream is
    never seen. *)
Theorem readLoop_stops_at_completion (D : Decoder) (readErr readErr' : error)
  (incoming more : list Http2.Frame) (response m : Http2.HTTPMessage)
  (dec : dec_state D) (hasBody bodyRead headersDone : bool) :
  Http2.readLoop D readErr incoming response dec hasBody bodyRead headersDone
  = (m, None) ->
  Http2.readLoop D readErr' (incoming ++ more) response dec
                 hasBody bodyRead headersDone
  = (m, None).
Proof.
  intros Hrun. apply (readLoop_success_extends D readErr) with (1 := Hrun).
Qed.

Lemma readLoop_stops_at_completion_witness :
  Http2.readLoop Rfc7541.decoder io_EOF
    [Http2.WriteHeaders 1 [] false true; Http2.WriteData 1 true [0x2a]]
    Http2.noMessage tt false false false
  = ({| Http2.Headers := []; Http2.Body := [0x2a] |}, None)
  /\ Http2.readLoop Rfc7541.decoder (LibError None 1)
       ([Http2.WriteHeaders 1 [] false true; Http2.WriteData 1 true [0x2a]]
        ++ [Http2.GoAwayFrame (Http2.mkFrameHeader 0 0) 1 2 []])
       Http2.noMessage tt false false false
     = ({| Http2.Headers := []; Http2.Body := [0x2a] |}, None).
Proof.
  assert (Hrun : Http2.readLoop Rfc7541.decoder io_EOF
                   [Http2.WriteHeaders 1 [] false true;
                    Http2.WriteData 1 true [0x2a]]
                   Http2.noMessage tt false false false
                 = ({| Http2.Headers := []; Http2.Body := [0x2a] |}, None))
    by reflexivity.
  split; [exact Hrun|].
  apply (readLoop_stops_at_completion Rfc7541.decoder io_EOF
           (LibError None 1) _ _ _ _ tt false false false Hrun).
Defined.

(** X14. Frames that are not GOAWAY and not on stream 1 never complete a
    response: if the connection brings nothing else while the loop still
    reads, the operation ends with the error the connection reports (the
    deadline, the end of the connection) and the empty message. *)
Theorem readLoop_starves_on_other_streams (D : Decoder) (readErr : error)
  (incoming : list Http2.Frame) (response : Http2.HTTPMessage)
  (dec : dec_state D) (hasBody bodyRead headersDone : bool) :
  Forall (fun f => passedOver f = true) incoming ->
  negb headersDone || (hasBody && negb bodyRead) = true ->
  Http2.readLoop D readErr incoming response dec hasBody bodyRead headersDone
  = (Http2.noMessage, Some readErr).
Proof.
  intros Hall Hcond. apply readLoop_only_passed_over; assumption.
Qed.

Lemma readLoop_starves_on_other_streams_witness :
  Forall (fun f => passedOver f = true)
    [Http2.WriteSettings []; Http2.WriteWindowUpdate 0 65535;
     Http2.WriteData 3 true [1]; Http2.OtherFrame (Http2.mkFrameHeader 0 0) []]
  /\ Http2.readLoop Rfc7541.decoder (LibError None 110)
       [Http2.WriteSettings []; Http2.WriteWindowUpdate 0 65535;
        Http2.WriteData 3 true [1];
        Http2.OtherFrame (Http2.mkFrameHeader 0 0) []]
       Http2.noMessage tt false false false
     = (Http2.noMessage, Some (LibError None 110)).
Proof.
  assert (Hall : Forall (fun f => passedOver f = true)
                   [Http2.WriteSettings []; Http2.WriteWindowUpdate 0 65535;
                    Http2.WriteData 3 true [1];
                    Http2.OtherFrame (Http2.mkFrameHeader 0 0) []])
    by (repeat constructor).
  split; [exact Hall|].
  apply (readLoop_starves_on_other_streams Rfc7541.decoder
           (LibError None 110) _ Http2.noMessage tt false false false Hall).
  reflexivity.
Defined.

(** X15. A response whose header block arrives in one HEADERS frame and any
    number of CONTINUATION frames, END_HEADERS on the last: the
    decompressor is fed the fragments in their order by successive writes,
    and the fields it emits are the response's fields.  With END_STREAM on
    the HEADERS frame the response is complete at END_HEADERS and has no
    body; without it, the DATA frames that follow up to END_STREAM give the
    body.  If the decompressor refuses a fragment its error is returned
    with the empty message. *)
Theorem readLoop_fragmented_header_block (D : Decoder) (readErr : error)
  (first : bytes) (more chunks : list bytes) (last : bytes)
  (rest : list Http2.Frame) :
  Http2.readLoop D readErr (headerBlockFrames true first more ++ rest)
    Http2.noMessage (NewDecoder D) false false false
  = match feed D (NewDecoder D) (first :: more) with
    | (fields, None) =>
        ({| Http2.Headers := fields; Http2.Body := [] |}, None)
    | (_, Some err) => (Http2.noMessage, Some err)
    end
  /\ Http2.readLoop D readErr
       (headerBlockFrames false first more
        ++ map (Http2.WriteData 1 false) chunks
        ++ Http2.WriteData 1 true last :: rest)
       Http2.noMessage (NewDecoder D) false false false
     = match feed D (NewDecoder D) (first :: more) with
       | (fields, None) =>
           ({| Http2.Headers := fields;
               Http2.Body := concat chunks ++ last |}, None)
       | (_, Some err) => (Http2.noMessage, Some err)
       end.
Proof.
  split.
  - apply (readLoop_header_block D readErr rest true
             (fun response => (response, None))).
    intros response dec. apply readLoop_done. reflexivity.
  - rewrite (readLoop_header_block D readErr _ false
               (fun response =>
                  ({| Http2.Headers := Http2.Headers response;
                      Http2.Body := Http2.Body response
                                    ++ concat chunks ++ last |}, None))).
    + destruct (feed D (NewDecoder D) (first :: more)) as [fields [err|]];
        reflexivity.
    + intros response dec. apply readLoop_chunks.
Qed.

(** Two fields in a HEADERS and a CONTINUATION frame, a body in two DATA
    frames. *)
Example readLoop_fragmented_response :
  Http2.readLoop Rfc7541.decoder io_EOF
    (headerBlockFrames false
       (Rfc7541.literalField (mkHeader [0x61] [0x31]))
       [Rfc7541.literalField (mkHeader [0x62] [0x32])]
     ++ map (Http2.WriteData 1 false) [[1; 2]]
     ++ [Http2.WriteData 1 true [3]])
    Http2.noMessage tt false false false
  = ({| Http2.Headers := [mkHeader [0x61] [0x31]; mkHeader [0x62] [0x32]];
        Http2.Body := [1; 2; 3] |}, None).
Proof. vm_compute. reflexivity. Qed.

(** ** A request read back as a response *)

Section Reflection.
Import Http2.

Lemma prepareHTTP2Request_frames (wire : Frame -> bytes)
  (request : HTTPMessage) :
  prepareHTTP2Request wire request
  = ClientPreface ++ flat_map wire (requestFrames request).
Proof.
  unfold prepareHTTP2Request, requestFrames. cbv zeta.
  destruct (writeBody_trace wire (Body request)
              (Z.to_nat (len (Body request) - 0)) 0
              (ClientPreface
               ++ wire (WriteSettings
                          [mkSetting SettingInitialWindowSize (2 ^ 30 - 1)])
               ++ wire (WriteWindowUpdate 0 (2 ^ 30 - 2 ^ 16 - 1))
               ++ wire (WriteHeaders 1
                          (fold_left hpackAppendHeader (Headers request) [])
                          (len (Body request) =? 0) true))
              (Nat.le_refl _)) as [Hw _].
  rewrite <- !app_assoc in *. rewrite Hw.
  unfold dataFrames. cbn [app flat_map].
  rewrite flat_map_app. cbn [flat_map]. rewrite app_nil_r.
  rewrite <- !app_assoc. reflexivity.
Qed.

Lemma readLoop_requestFrames (D : Decoder) (readErr : error)
  (request : HTTPMessage) (rest : list Frame) (dec' : dec_state D)
  (fields : list Header) :
  Write D (NewDecoder D)
        (fold_left hpackAppendHeader (Headers request) [])
  = (dec', fields, None) ->
  readLoop D readErr (requestFrames request ++ rest) noMessage
           (NewDecoder D) false false false
  = ({| Headers := fields; Body := Body request |}, None).
Proof.
  intros HW. unfold requestFrames. cbn [app].
  rewrite !readLoop_passes_over by reflexivity.
  rewrite (readLoop_headers D readErr _ _ _ dec' fields HW).
  destruct (framesFrom_props (Body request)
              (Z.to_nat (len (Body request) - 0)) 0
              (Nat.le_refl _) (Z.le_refl 0)) as (Hcat & Hall & Hlast).
  cbn [Z.to_nat skipn] in Hcat.
  destruct (Body request) as [|b body'] eqn:Ebody.
  - change (len (@nil byte) =? 0) with true. cbn [negb].
    apply readLoop_done. reflexivity.
  - assert (Hne : (len (b :: body') =? 0) = false)
      by (apply Z.eqb_neq; unfold len; cbn [length]; lia).
    rewrite Hne. cbn [negb]. unfold dataFrames in *.
    rewrite <- app_assoc.
    rewrite readLoop_data_frames; try assumption.
    + cbn [Headers Body app]. rewrite Hcat. reflexivity.
    + intros Hnil. apply framesFrom_nil in Hnil.
      unfold len in Hnil; cbn [length] in Hnil; lia.
Qed.

End Reflection.

(** X16. A request read back as a response is the request: when the setup
    succeeds and the peer answers with the frames the request was written
    in (the SETTINGS, WINDOW_UPDATE, HEADERS and DATA frames and the
    SETTINGS acknowledgement), followed by anything, [SendHTTP2Request] with
    the decompressor of RFC 7541 returns the fields of the request in their
    order and its body, and no error. *)
Theorem SendHTTP2Request_reflected (wire : Http2.Frame -> bytes)
  (net : Http2.Network) (keyLogFile : string) (request : Http2.HTTPMessage)
  (rest : list Http2.Frame) :
  Forall (fun h => len (Name h) < 2 ^ 63 /\ len (Value h) < 2 ^ 63)
         (Http2.Headers request) ->
  Http2.LookUp net = None -> Http2.DialTimeout net = None ->
  Http2.OpenFile net = None -> Http2.ConnWrite net = None ->
  Http2.incoming
    (Http2.peer net (Http2.ClientPreface
                     ++ flat_map wire (requestFrames request)))
  = requestFrames request ++ rest ->
  Http2.prepareHTTP2Request wire request
  = Http2.ClientPreface ++ flat_map wire (requestFrames request)
  /\ Http2.SendHTTP2Request Rfc7541.decoder wire net keyLogFile request
     = (request, None).
Proof.
  intros Hgo Hlookup Hdial Hopen Hwrite Hpeer.
  split; [apply prepareHTTP2Request_frames|].
  unfold Http2.SendHTTP2Request.
  rewrite Hlookup, Hdial, Hopen, Hwrite.
  destruct (String.eqb keyLogFile ""); cbv zeta;
    rewrite prepareHTTP2Request_frames, Hpeer;
    (rewrite (readLoop_requestFrames Rfc7541.decoder _ request rest tt
                (Http2.Headers request));
     [destruct request; reflexivity|]);
    cbn [Write Rfc7541.decoder];
    rewrite (hpackBuf_literal _ Hgo []); cbn [app];
    rewrite decodeBlock_literal; reflexivity.
Qed.

(** A peer that sends back the frames of [sampleMessage] and then a PING. *)
Lemma SendHTTP2Request_reflected_witness :
  Http2.SendHTTP2Request Rfc7541.decoder (fun _ => [0x00])
    {| Http2.LookUp := None; Http2.DialTimeout := None;
       Http2.OpenFile := None; Http2.ConnWrite := None;
       Http2.peer := fun _ =>
         {| Http2.incoming :=
              requestFrames sampleMessage
              ++ [Http2.OtherFrame (Http2.mkFrameHeader 0 0) []];
            Http2.readErr := io_EOF |} |}
    "keys.log" sampleMessage
  = (sampleMessage, None).
Proof.
  apply (SendHTTP2Request_reflected (fun _ => [0x00]) _ "keys.log"
           sampleMessage [Http2.OtherFrame (Http2.mkFrameHeader 0 0) []]);
    try reflexivity.
  repeat constructor; vm_compute; reflexivity.
Defined.

Section HeaderFlags.

Variable P : Cmd.Platform.

Lemma Split_length (s : bytes) (sep : byte) :
  length (Cmd.Split s sep) = S (count_occ Z.eq_dec s sep).
Proof.
  induction s as [|c s IH]; [reflexivity|].
  cbn [Cmd.Split count_occ].
  destruct (Z.eqb_spec c sep) as [Heq|Hne].
  - destruct (Z.eq_dec c sep) as [_|Hn]; [|contradiction].
    cbn [length]. now rewrite IH.
  - destruct (Z.eq_dec c sep) as [He|_]; [contradiction|].
    destruct (Cmd.Split s sep) as [|part parts]; [discriminate IH|].
    exact IH.
Qed.

Lemma Split_single (s : bytes) (sep : byte) :
  ~ In sep s -> Cmd.Split s sep = [s].
Proof.
  induction s as [|c s IH]; intros Hin; [reflexivity|].
  cbn [Cmd.Split].
  destruct (Z.eqb_spec c sep) as [Heq|Hne].
  - exfalso. apply Hin. now left.
  - rewrite IH; [reflexivity|].
    intros H. apply Hin. now right.
Qed.

Lemma Split_pair (name value : bytes) (sep : byte) :
  ~ In sep name -> ~ In sep value ->
  Cmd.Split (name ++ sep :: value) sep = [name; value].
Proof.
  intros Hname Hvalue.
  induction name as [|c name IH]; cbn [app Cmd.Split].
  - rewrite Z.eqb_refl. now rewrite Split_single.
  - destruct (Z.eqb_spec c sep) as [Heq|Hne].
    + exfalso. apply Hname. now left.
    + rewrite IH; [reflexivity|].
      intros H. apply Hname. now right.
Qed.

Lemma Split_two (header : bytes) :
  (len (Cmd.Split header 0x3a) =? 2) = true <-> colons header = 1%nat.
Proof.
  unfold len, colons. rewrite Split_length, Z.eqb_eq. lia.
Qed.

Lemma addHeaders_step (header : bytes) (headers : list bytes)
  (c : Cmd.commonArguments P) :
  colons header = 1%nat ->
  Cmd.addHeaders P (header :: headers) c =
  Cmd.addHeaders P headers
    {| Cmd.addIdHeader := Cmd.addIdHeader c;
       Cmd.commonHeaders :=
         Cmd.commonHeaders c
         ++ [Cmd.headerField P (Cmd.Split header 0x3a)];
       Cmd.keyLogFile := Cmd.keyLogFile c;
       Cmd.proto := Cmd.proto c;
       Cmd.timeout := Cmd.timeout c;
       Cmd.target := Cmd.target c |}.
Proof.
  intros Hone. apply Split_two in Hone.
  cbn [Cmd.addHeaders]. cbv zeta. now rewrite Hone.
Qed.

Lemma addHeaders_stop (header : bytes) (headers : list bytes)
  (c : Cmd.commonArguments P) :
  colons header <> 1%nat ->
  Cmd.addHeaders P (header :: headers) c =
  (c, Some (Cmd.ErrorfString
              "invalid header '%s', expected syntax: 'x-extra-header: val'"
              header)).
Proof.
  intros Hbad.
  cbn [Cmd.addHeaders]. cbv zeta.
  destruct (len (Cmd.Split header 0x3a) =? 2) eqn:Hlen; [|reflexivity].
  apply Split_two in Hlen. contradiction.
Qed.

Lemma colons_headerFlag (field : bytes * bytes) :
  ~ In 0x3a (fst field) -> ~ In 0x3a (snd field) ->
  colons (headerFlag field) = 1%nat.
Proof.
  intros Hname Hvalue. unfold colons, headerFlag.
  rewrite count_occ_app. cbn [count_occ].
  destruct (Z.eq_dec 0x3a 0x3a) as [_|Hn]; [|contradiction].
  apply (count_occ_not_In Z.eq_dec) in Hname, Hvalue.
  exact (f_equal2 (fun a b => (a + S b)%nat) Hname Hvalue).
Qed.

Lemma addHeaders_fields (fields : list (bytes * bytes))
  (rest : list bytes) (c : Cmd.commonArguments P) :
  Forall (fun field => ~ In 0x3a (fst field) /\ ~ In 0x3a (snd field))
         fields ->
  Cmd.addHeaders P (map headerFlag fields ++ rest) c =
  Cmd.addHeaders P rest
    {| Cmd.addIdHeader := Cmd.addIdHeader c;
       Cmd.commonHeaders :=
         Cmd.commonHeaders c
         ++ map (fun field => Cmd.headerField P [fst field; snd field])
                fields;
       Cmd.keyLogFile := Cmd.keyLogFile c;
       Cmd.proto := Cmd.proto c;
       Cmd.timeout := Cmd.timeout c;
       Cmd.target := Cmd.target c |}.
Proof.
  intros Hfields. revert c.
  induction Hfields as [|field fields [Hname Hvalue] _ IH]; intros c.
  - cbn [map app]. rewrite app_nil_r. now destruct c.
  - cbn [map app].
    rewrite addHeaders_step by now apply colons_headerFlag.
    rewrite IH. cbn [Cmd.addIdHeader Cmd.commonHeaders Cmd.keyLogFile
                     Cmd.proto Cmd.timeout Cmd.target].
    unfold headerFlag at 1. rewrite Split_pair by assumption.
    now rewrite <- app_assoc.
Qed.

Lemma addHeaders_outcome (headers : list bytes)
  (c : Cmd.commonArguments P) :
  snd (Cmd.addHeaders P headers c) = None <->
  Forall (fun header => colons header = 1%nat) headers.
Proof.
  revert c. induction headers as [|header headers IH]; intros c.
  - cbn. split; [constructor|reflexivity].
  - destruct (Nat.eq_dec (colons header) 1) as [Hone|Hbad].
    + rewrite addHeaders_step by assumption. rewrite IH.
      split; [now constructor|now inversion 1].
    + rewrite addHeaders_stop by assumption. cbn [snd].
      split; [discriminate|]. inversion 1. contradiction.
Qed.

(** X17. In the loop of [PersistentPreRunE] over the header flags, flags
    of the form name, colon, value, with no further colon in the name or in
    the value, are all accepted; the common headers grow by
    one field for each flag, in the order of the flags, after the fields
    they held before: the name is the text before the colon, lowered and
    then trimmed, the value the text after the colon, trimmed; the other
    common arguments stay as they were. *)
Theorem addHeaders_accepts (fields : list (bytes * bytes))
  (c : Cmd.commonArguments P) :
  Forall (fun field => ~ In 0x3a (fst field) /\ ~ In 0x3a (snd field))
         fields ->
  Cmd.addHeaders P (map headerFlag fields) c =
  ({| Cmd.addIdHeader := Cmd.addIdHeader c;
      Cmd.commonHeaders :=
        Cmd.commonHeaders c
        ++ map (fun field =>
                  {| Name := Cmd.TrimSpace P (Cmd.ToLower P (fst field));
                     Value := Cmd.TrimSpace P (snd field) |})
               fields;
      Cmd.keyLogFile := Cmd.keyLogFile c;
      Cmd.proto := Cmd.proto c;
      Cmd.timeout := Cmd.timeout c;
      Cmd.target := Cmd.target c |}, None).
Proof.
  intros Hfields.
  rewrite <- (app_nil_r (map headerFlag fields)).
  rewrite addHeaders_fields by assumption.
  reflexivity.
Qed.

(** X18. In the loop of [PersistentPreRunE] over the header flags, a flag
    whose number of colons is not one (none, or a second one as in a value
    that holds a URL or in the name of a pseudo-header) stops
    the loop with the invalid-header error that carries this flag; the flags
    after it are not looked at, and the fields of the well-formed flags
    before it have already been added to the common headers. *)
Theorem addHeaders_first_malformed (fields : list (bytes * bytes))
  (header : bytes) (rest : list bytes) (c : Cmd.commonArguments P) :
  Forall (fun field => ~ In 0x3a (fst field) /\ ~ In 0x3a (snd field))
         fields ->
  colons header <> 1%nat ->
  Cmd.addHeaders P (map headerFlag fields ++ header :: rest) c =
  ({| Cmd.addIdHeader := Cmd.addIdHeader c;
      Cmd.commonHeaders :=
        Cmd.commonHeaders c
        ++ map (fun field =>
                  {| Name := Cmd.TrimSpace P (Cmd.ToLower P (fst field));
                     Value := Cmd.TrimSpace P (snd field) |})
               fields;
      Cmd.keyLogFile := Cmd.keyLogFile c;
      Cmd.proto := Cmd.proto c;
      Cmd.timeout := Cmd.timeout c;
      Cmd.target := Cmd.target c |},
   Some (Cmd.ErrorfString
           "invalid header '%s', expected syntax: 'x-extra-header: val'"
           header)).
Proof.
  intros Hfields Hbad.
  rewrite addHeaders_fields by assumption.
  rewrite addHeaders_stop by assumption.
  reflexivity.
Qed.

(** X19. The hook [PersistentPreRunE] returns without an error exactly
    when every header flag has one colon, the protocol flag is "h2" or "h3"
    byte for byte, there is a first argument and [url.Parse] accepts it. *)
Theorem PersistentPreRunE_succeeds_iff (headers : list bytes)
  (protoFlag : bytes) (args : list bytes) (c : Cmd.commonArguments P) :
  (exists c', Cmd.PersistentPreRunE P headers protoFlag args c
              = Returns (c', None))
  <->
  (Forall (fun header => colons header = 1%nat) headers
   /\ (protoFlag = [0x68; 0x32] \/ protoFlag = [0x68; 0x33])
   /\ exists arg0 more parsed,
        args = arg0 :: more /\ Cmd.Parse P arg0 = Ok parsed).
Proof.
  unfold Cmd.PersistentPreRunE.
  pose proof (addHeaders_outcome headers c) as Hout.
  destruct (Cmd.addHeaders P headers c) as [c1 [err|]]; cbn [snd] in Hout.
  - split.
    + intros [c' H]. discriminate H.
    + intros [Hall _]. apply Hout in Hall. discriminate Hall.
  - assert (Hall : Forall (fun header => colons header = 1%nat) headers)
      by now apply Hout.
    destruct (list_eq_dec Z.eq_dec protoFlag [0x68; 0x32]) as [H2|N2];
      [|destruct (list_eq_dec Z.eq_dec protoFlag [0x68; 0x33]) as [H3|N3]].
    3: { split.
         - intros [c' H]. discriminate H.
         - intros [_ [[H|H] _]]; contradiction. }
    all: cbv zeta; destruct args as [|arg0 more].
    all: try (split;
              [ intros [c' H]; discriminate H
              | intros [_ [_ [a [m [p [H _]]]]]]; discriminate H ]).
    all: destruct (Cmd.Parse P arg0) as [parsed|err] eqn:Hparse.
    all: split.
    all: try (intros [c' H]; discriminate H).
    all: try (intros [_ [_ [a [m [p [H Hp]]]]]]; injection H as -> ->;
              rewrite Hparse in Hp; discriminate Hp).
    all: try (intros _; eexists; reflexivity).
    all: intros _; split; [exact Hall|split; [auto|]].
    all: now exists arg0, more, parsed.
Qed.

End HeaderFlags.

Lemma addHeaders_accepts_witness :
  let fields :=
    [([0x58; 0x2d; 0x49; 0x64], [0x20; 0x34; 0x32]);
     ([0x61], [])] in
  Forall (fun field => ~ In 0x3a (fst field) /\ ~ In 0x3a (snd field))
         fields
  /\ Cmd.addHeaders samplePlatform (map headerFlag fields) noArguments =
     ({| Cmd.addIdHeader := false;
         Cmd.commonHeaders :=
           [mkHeader [0x78; 0x2d; 0x69; 0x64] [0x34; 0x32];
            mkHeader [0x61] []];
         Cmd.keyLogFile := [];
         Cmd.proto := 0;
         Cmd.timeout := 10;
         Cmd.target := None |}, None).
Proof.
  cbv zeta.
  assert (H : Forall (fun field : bytes * bytes =>
                        ~ In 0x3a (fst field) /\ ~ In 0x3a (snd field))
                [([0x58; 0x2d; 0x49; 0x64], [0x20; 0x34; 0x32]);
                 ([0x61], [])]).
  { repeat constructor; cbn; intros H; intuition discriminate. }
  split; [exact H|].
  exact (addHeaders_accepts samplePlatform _ noArguments H).
Defined.

Lemma addHeaders_first_malformed_witness :
  let fields := [([0x61], [0x62])] in
  let header := [0x75; 0x3a; 0x68; 0x3a; 0x2f] in
  Forall (fun field => ~ In 0x3a (fst field) /\ ~ In 0x3a (snd field))
         fields
  /\ colons header <> 1%nat
  /\ Cmd.addHeaders samplePlatform
       (map headerFlag fields ++ header :: [[0x63; 0x3a; 0x64]])
       noArguments =
     ({| Cmd.addIdHeader := false;
         Cmd.commonHeaders := [mkHeader [0x61] [0x62]];
         Cmd.keyLogFile := [];
         Cmd.proto := 0;
         Cmd.timeout := 10;
         Cmd.target := None |},
      Some (Cmd.ErrorfString
              "invalid header '%s', expected syntax: 'x-extra-header: val'"
              [0x75; 0x3a; 0x68; 0x3a; 0x2f])).
Proof.
  cbv zeta.
  assert (H : Forall (fun field : bytes * bytes =>
                        ~ In 0x3a (fst field) /\ ~ In 0x3a (snd field))
                [([0x61], [0x62])]).
  { repeat constructor; cbn; intros H; intuition discriminate. }
  assert (Hbad : colons [0x75; 0x3a; 0x68; 0x3a; 0x2f] <> 1%nat)
    by (vm_compute; discriminate).
  split; [exact H|]. split; [exact Hbad|].
  exact (addHeaders_first_malformed samplePlatform _ _ _ noArguments H Hbad).
Defined.

(** ** Errors and messages *)

(** X20. On both protocol paths an error is never returned together with
    a message: when [SendHTTP2Request] returns an error its message is the
    empty one, and when [SendHTTP3Request] returns an error its response is
    absent, whatever had been decoded before. *)
Theorem no_partial_message (D : Decoder) (E : Encoder)
  (wire : Http2.Frame -> bytes) (net2 : Http2.Network) (keyLogFile : string)
  (request2 : Http2.HTTPMessage) (net3 : Http3.Network)
  (request3 : Http3.HttpRequest) :
  (forall (m : Http2.HTTPMessage) (err : error),
     Http2.SendHTTP2Request D wire net2 keyLogFile request2 = (m, Some err) ->
     m = Http2.noMessage)
  /\ (forall (resp : option Http3.HttpResponse) (err : error),
        Http3.SendHTTP3Request D E net3 request3 = Returns (resp, Some err) ->
        resp = None).
Proof.
  split.
  - intros m err. unfold Http2.SendHTTP2Request.
    destruct (Http2.LookUp net2); [intros [= <- _]; reflexivity|].
    destruct (Http2.DialTimeout net2); [intros [= <- _]; reflexivity|].
    destruct (if String.eqb keyLogFile "" then None else Http2.OpenFile net2);
      [intros [= <- _]; reflexivity|].
    destruct (Http2.ConnWrite net2); [intros [= <- _]; reflexivity|].
    cbv zeta. apply readLoop_error.
  - intros resp err. unfold Http3.SendHTTP3Request.
    destruct (Http3.LookUp net3); [intros [= <- _]; reflexivity|].
    destruct (Http3.Atoi net3); [intros [= <- _]; reflexivity|].
    destruct (Http3.ListenPacket net3); [intros [= <- _]; reflexivity|].
    destruct (Http3.DialEarlyContext net3); [intros [= <- _]; reflexivity|].
    destruct (Http3.setupSession net3); [intros [= <- _]; reflexivity|].
    destruct (Http3.OpenStream net3); [intros [= <- _]; reflexivity|].
    destruct (Http3.prepareHTTP3Request E request3) as [frames|? ?];
      cbn [and_then]; [|discriminate].
    destruct (Http3.Close net3); [intros [= <- _]; reflexivity|].
    intros Hrecv. eapply receive_error; [apply Nat.le_refl | exact Hrecv].
Qed.

Lemma no_partial_message_witness :
  Http2.SendHTTP2Request Rfc7541.decoder (fun _ => []) resettingPeer ""
    Http2.noMessage
  = (Http2.noMessage,
     Some (Errorf "received RST_STREAM frame: error code %v" [8]))
  /\ Http3.SendHTTP3Request Rfc7541.decoder literalEncoder truncatingPeer
       sampleRequest
     = Returns (None, Some io_ErrUnexpectedEOF).
Proof.
  pose proof (no_partial_message Rfc7541.decoder literalEncoder
                (fun _ => []) resettingPeer "" Http2.noMessage
                truncatingPeer sampleRequest) as [H2 H3].
  split.
  - destruct (Http2.SendHTTP2Request Rfc7541.decoder (fun _ => [])
                resettingPeer "" Http2.noMessage) as [m e] eqn:Hrun.
    assert (He : e = Some (Errorf "received RST_STREAM frame: error code %v"
                                  [8])).
    { apply (f_equal snd) in Hrun. cbn [snd] in Hrun. rewrite <- Hrun.
      vm_compute. reflexivity. }
    subst e. rewrite (H2 m _ eq_refl). reflexivity.
  - destruct (Http3.SendHTTP3Request Rfc7541.decoder literalEncoder
                truncatingPeer sampleRequest) as [[resp e]|f x] eqn:Hrun.
    + assert (He : e = Some io_ErrUnexpectedEOF).
      { apply (f_equal (fun c => match c with
                                 | Returns (_, e) => e
                                 | Panics _ _ => None
                                 end)) in Hrun.
        rewrite <- Hrun. vm_compute. reflexivity. }
      subst e. rewrite (H3 resp _ eq_refl). reflexivity.
    + exfalso.
      apply (f_equal (fun c => match c with
                               | Returns _ => true
                               | Panics _ _ => false
                               end)) in Hrun.
      vm_compute in Hrun. discriminate Hrun.
Defined.
